(** * powerdetector: the debounced voltage alarm of [powerdetector.py]

    A shallow embedding of [monitor], of the two alarm handlers and of the
    start-up code of [powerdetector.py], followed by the properties of the
    alarm state machine, of the notification fan-out, of the read period and
    of the heartbeat deadline.

    Conventions of the embedding:
    - Python [int]s are [Z]; the voltages, the threshold and the read period
      are IEEE 754 binary64 values ([PrimFloat.float]), as Python [float]s
      are, so that the comparison [adcValVolts < alarmMinVoltage] is the
      hardware comparison, NaN included; the [int] [1] assigned to
      [readPeriod] is the double [1.0];
    - the values of [time.time()] are rationals ([Q]) and the clock is an
      input of every cycle: each finite double is a rational, and
      [time.time() + infoPeriod] is taken without rounding;
    - the effects of a run (sleeping, reading the ADC, logging, handler
      calls, tone and mail output) are recorded in a trace of [Event]s; an
      exception that leaves [monitor] ends the trace and leaves no state. *)

From Stdlib Require Import ZArith QArith Lqa List Lia Bool String.
From Stdlib Require Import Floats.
Import ListNotations.

#[local] Set Warnings "-inexact-float".
#[local] Open Scope string_scope.
#[local] Open Scope list_scope.
#[local] Open Scope Z_scope.

(** ** Data model *)

(** The numeric levels of Python's [logging] module. *)
Module logging.
Definition NOTSET : Z := 0.
Definition DEBUG : Z := 10.
Definition INFO : Z := 20.
Definition WARNING : Z := 30.
Definition ERROR : Z := 40.
Definition CRITICAL : Z := 50.
End logging.

(** [class AlarmState(Enum)]: three members, of which [monitor] only ever
    assigns [OK] and [ALARM]. *)
Inductive AlarmState : Type :=
| OK
| ALARMING_VOLTAGE
| ALARM.

Definition AlarmState_eqb (a b : AlarmState) : bool :=
  match a, b with
  | OK, OK | ALARMING_VOLTAGE, ALARMING_VOLTAGE | ALARM, ALARM => true
  | _, _ => false
  end.

(** The two concrete subclasses of [AlarmHandler], with the fields their
    constructors store. *)
Inductive AlarmHandler : Type :=
| BuzzerAlarmHandler (alarmPin alarmDuration : Z)
| EMailAlarmHandler (username password destination : string).

(** The two messages [monitor] formats, kept as the tuple of the values that
    are substituted into the format string. *)
Inductive Message : Type :=
| ConfigMsg (adcNumber : Z) (readPeriodState alarmMinVoltage : float)
            (alarmNTriggers : Z)
| StatusMsg (alarmState : AlarmState) (adcNumber adcVal : Z)
            (adcValVolts : float) (numberOfAlarmsLeftToTrigger : Z).

Inductive LogRecord : Type :=
| LogMessage (msg : Message)
| LogLessThanMinimum (adcValVolts alarmMinVoltage : float)
| LogGreaterThanMinimum (adcValVolts alarmMinVoltage : float)
| LogNextInfoTrigger (nextInfoTrigger : Q)
| LogSirenTriggering
| LogSirenFinished
| LogMailFailed.

(** What a run does to the outside world, in program order. [Trigger] marks
    the entry into [handler.trigger(msg, severity)]. *)
Inductive Event : Type :=
| Sleep (seconds : float)
| AnalogRead (adcNumber adcVal : Z)
| Log (level : Z) (record : LogRecord)
| Trigger (handler : AlarmHandler) (msg : Message) (severity : Z)
| Siren (pin duration : Z)
| SendMail (username destination severityName : string) (body : Message).

(** Whether the external collaborators raise when they are used: the tone
    generator behind [wpi.softTone*] and the mail relay behind [smtplib]. *)
Record IOFaults : Type := {
  wpi_raises : bool;
  smtp_raises : bool
}.

(** The inputs one iteration of the [while True] loop reads from the
    outside: the ADC sample, the clock at the heartbeat test, the clock when
    the deadline is recomputed, and the behaviour of the collaborators. *)
Record CycleEnv : Type := {
  adcVal : Z;
  now_check : Q;
  now_rearm : Q;
  faults : IOFaults
}.

(** The parameters of [monitor]. *)
Record Config : Type := {
  adcNumber : Z;
  readPeriodState : float;
  alarmMinVoltage : float;
  alarmNTriggers : Z;
  alarmHandlers : list AlarmHandler;
  infoPeriod : Z
}.

(** The local variables of [monitor] that live across iterations. *)
Record LoopState : Type := {
  alarmState : AlarmState;
  numberOfAlarmsLeftToTrigger : Z;
  readPeriod : float;
  nextInfoTrigger : Q
}.

(** The parsed command line ([args]). *)
Record Args : Type := {
  adc : Z;
  period : float;
  alarm_min : float;
  alarm_tri : Z;
  email_user : string;
  email_pass : string;
  email_dest : string;
  info_period : Z;
  buzzer_pin : Z;
  buzzer_duration : Z
}.

(** ** Effects: a trace of events and an optional result *)

(** A computation yields the events it performed and, unless an exception
    escaped, a value. *)
Definition Exec (A : Type) : Type := (list Event * option A)%type.

Definition ret {A : Type} (a : A) : Exec A := ([], Some a).

Definition raise {A : Type} : Exec A := ([], None).

Definition emit (e : Event) : Exec unit := ([e], Some tt).

Definition bind {A B : Type} (m : Exec A) (f : A -> Exec B) : Exec B :=
  match snd m with
  | Some a => (fst m ++ fst (f a), snd (f a))
  | None => (fst m, None)
  end.

Declare Scope exec_scope.
Delimit Scope exec_scope with exec.
Notation "x <- m ;; k" := (bind m (fun x => k))
  (at level 61, m at next level, right associativity) : exec_scope.
Notation "m ;; k" := (bind m (fun _ => k))
  (at level 61, right associativity) : exec_scope.
Open Scope exec_scope.

(** [for handler in alarmHandlers: ...] where the body may rebind a local
    that is read after the loop. *)
Fixpoint for_handlers {S : Type} (body : S -> AlarmHandler -> Exec S)
    (s : S) (handlers : list AlarmHandler) : Exec S :=
  match handlers with
  | [] => ret s
  | handler :: rest => s' <- body s handler ;; for_handlers body s' rest
  end.

(** ** Numbers *)

(** Python converts the [int] operand of [int * float] to the nearest
    double (ties to even). [analogRead] returns a C [int], far inside the
    range where the conversion is exact. *)
Definition float_of_int (z : Z) : float :=
  SF2Prim (binary_normalize prec emax z 0 false).

(** [ADC_SCALE_TO_V = 1.8 / 1023] *)
Definition ADC_SCALE_TO_V : float := (1.8 / float_of_int 1023)%float.

(** [time.time() > nextInfoTrigger] *)
Definition Qgt_bool (a b : Q) : bool := negb (Qle_bool a b).

(** ** The alarm handlers *)

(** [EMailAlarmHandler.getLoggingString]: the dictionary lookup with the
    [NOTSET] entry as default. *)
Definition getLoggingString (severity : Z) : string :=
  if severity =? logging.NOTSET then "NOTSET"
  else if severity =? logging.DEBUG then "DEBUG"
  else if severity =? logging.INFO then "INFO"
  else if severity =? logging.WARNING then "WARNING"
  else if severity =? logging.ERROR then "ERROR"
  else if severity =? logging.CRITICAL then "CRITICAL"
  else "NOTSET".

(** [BuzzerAlarmHandler.trigger]: nothing below [ERROR]; otherwise the tone
    generator is driven for [duration] seconds, with no exception handler
    around the [wpi] calls. [wpi_raises] stands for a failure of the first
    of these calls, and [Siren] records that lines 57-64 have run to their
    end, whatever they played ([siren] below gives the calls). *)
Definition BuzzerAlarmHandler_trigger (io : IOFaults) (pin duration : Z)
    (msg : Message) (severity : Z) : Exec unit :=
  if logging.ERROR <=? severity then
    emit (Log logging.INFO LogSirenTriggering) ;;
    (if wpi_raises io then raise else emit (Siren pin duration)) ;;
    emit (Log logging.INFO LogSirenFinished)
  else ret tt.

(** [EMailAlarmHandler.trigger]: the whole SMTP session sits in
    [try: ... except Exception as e: logger.critical(...)]. [smtp_raises]
    stands for a failure before [sendmail] has sent the message. *)
Definition EMailAlarmHandler_trigger (io : IOFaults)
    (username destination : string) (msg : Message) (severity : Z)
    : Exec unit :=
  if smtp_raises io then emit (Log logging.CRITICAL LogMailFailed)
  else emit (SendMail username destination (getLoggingString severity) msg).

(** [handler.trigger(msg, severity)], by dynamic dispatch. *)
Definition trigger (io : IOFaults) (handler : AlarmHandler) (msg : Message)
    (severity : Z) : Exec unit :=
  emit (Trigger handler msg severity) ;;
  match handler with
  | BuzzerAlarmHandler pin duration =>
      BuzzerAlarmHandler_trigger io pin duration msg severity
  | EMailAlarmHandler username _ destination =>
      EMailAlarmHandler_trigger io username destination msg severity
  end.

(** ** [monitor] *)

(** Lines 107-125: the start-up notification and the initial values. *)
Definition monitor_setup (cfg : Config) (io : IOFaults) (now : Q)
    : Exec LoopState :=
  let msg := ConfigMsg (adcNumber cfg) (readPeriodState cfg)
                       (alarmMinVoltage cfg) (alarmNTriggers cfg) in
  for_handlers (fun _ handler => trigger io handler msg logging.INFO)
               tt (alarmHandlers cfg) ;;
  emit (Log logging.DEBUG (LogMessage msg)) ;;
  let numberOfAlarmsLeftToTrigger := alarmNTriggers cfg in
  let alarmState := OK in
  let readPeriod := readPeriodState cfg in
  let nextInfoTrigger := (now + inject_Z (infoPeriod cfg))%Q in
  emit (Log logging.INFO (LogNextInfoTrigger nextInfoTrigger)) ;;
  ret {| alarmState := alarmState;
         numberOfAlarmsLeftToTrigger := numberOfAlarmsLeftToTrigger;
         readPeriod := readPeriod;
         nextInfoTrigger := nextInfoTrigger |}.

(** Lines 134-156: the alarm state machine, with the dispatch of the alarm.
    It yields the new values of [alarmState], [numberOfAlarmsLeftToTrigger],
    [readPeriod] and [statusMsg]. *)
Definition alarm_branch (cfg : Config) (io : IOFaults) (adcVal : Z)
    (adcValVolts : float) (alarmState : AlarmState)
    (numberOfAlarmsLeftToTrigger : Z) (readPeriod : float)
    (statusMsg : Message)
    : Exec (AlarmState * Z * float * Message) :=
  if AlarmState_eqb alarmState OK then
    if (adcValVolts <? alarmMinVoltage cfg)%float then
      emit (Log logging.WARNING
                (LogLessThanMinimum adcValVolts (alarmMinVoltage cfg))) ;;
      let readPeriod := 1%float in
      let numberOfAlarmsLeftToTrigger := numberOfAlarmsLeftToTrigger - 1 in
      if numberOfAlarmsLeftToTrigger <? 1 then
        let alarmState := ALARM in
        statusMsg <-
          for_handlers
            (fun _ handler =>
               let statusMsg :=
                 StatusMsg alarmState (adcNumber cfg) adcVal adcValVolts
                           numberOfAlarmsLeftToTrigger in
               trigger io handler statusMsg logging.CRITICAL ;;
               ret statusMsg)
            statusMsg (alarmHandlers cfg) ;;
        ret (alarmState, numberOfAlarmsLeftToTrigger, readPeriod, statusMsg)
      else
        ret (alarmState, numberOfAlarmsLeftToTrigger, readPeriod, statusMsg)
    else
      let numberOfAlarmsLeftToTrigger := alarmNTriggers cfg in
      ret (alarmState, numberOfAlarmsLeftToTrigger, readPeriod, statusMsg)
  else
    if (adcValVolts <? alarmMinVoltage cfg)%float then
      let numberOfAlarmsLeftToTrigger := 0 in
      ret (alarmState, numberOfAlarmsLeftToTrigger, readPeriod, statusMsg)
    else
      emit (Log logging.WARNING
                (LogGreaterThanMinimum adcValVolts (alarmMinVoltage cfg))) ;;
      let numberOfAlarmsLeftToTrigger := numberOfAlarmsLeftToTrigger + 1 in
      if alarmNTriggers cfg <=? numberOfAlarmsLeftToTrigger then
        let alarmState := OK in
        ret (alarmState, numberOfAlarmsLeftToTrigger, readPeriod, statusMsg)
      else
        ret (alarmState, numberOfAlarmsLeftToTrigger, readPeriod, statusMsg).

(** Lines 158-163: the information alarm. It yields the new value of
    [nextInfoTrigger]. *)
Definition info_branch (cfg : Config) (env : CycleEnv) (statusMsg : Message)
    (nextInfoTrigger : Q) : Exec Q :=
  if Qgt_bool (now_check env) nextInfoTrigger then
    for_handlers
      (fun _ handler => trigger (faults env) handler statusMsg logging.INFO)
      tt (alarmHandlers cfg) ;;
    let nextInfoTrigger := (now_rearm env + inject_Z (infoPeriod cfg))%Q in
    emit (Log logging.INFO (LogNextInfoTrigger nextInfoTrigger)) ;;
    ret nextInfoTrigger
  else ret nextInfoTrigger.

(** Lines 128-163: one iteration of the [while True] loop. [time.sleep],
    [wpi.analogRead] and the logging calls are taken to return, as they do
    for a valid period and a working sampler. *)
Definition cycle (cfg : Config) (env : CycleEnv) (st : LoopState)
    : Exec LoopState :=
  emit (Sleep (readPeriod st)) ;;
  let readPeriod := readPeriodState cfg in
  emit (AnalogRead (adcNumber cfg) (adcVal env)) ;;
  let adcValVolts := (float_of_int (adcVal env) * ADC_SCALE_TO_V)%float in
  let statusMsg :=
    StatusMsg (alarmState st) (adcNumber cfg) (adcVal env) adcValVolts
              (numberOfAlarmsLeftToTrigger st) in
  emit (Log logging.DEBUG (LogMessage statusMsg)) ;;
  r <- alarm_branch cfg (faults env) (adcVal env) adcValVolts (alarmState st)
         (numberOfAlarmsLeftToTrigger st) readPeriod statusMsg ;;
  let '(alarmState, numberOfAlarmsLeftToTrigger, readPeriod, statusMsg) := r in
  nextInfoTrigger <- info_branch cfg env statusMsg (nextInfoTrigger st) ;;
  ret {| alarmState := alarmState;
         numberOfAlarmsLeftToTrigger := numberOfAlarmsLeftToTrigger;
         readPeriod := readPeriod;
         nextInfoTrigger := nextInfoTrigger |}.

(** The [while True] loop, run for as many iterations as there are inputs. *)
Fixpoint monitor_loop (cfg : Config) (envs : list CycleEnv) (st : LoopState)
    : Exec LoopState :=
  match envs with
  | [] => ret st
  | env :: rest => st' <- cycle cfg env st ;; monitor_loop cfg rest st'
  end.

(** [monitor(...)], observed over a finite number of iterations. *)
Definition monitor (cfg : Config) (io : IOFaults) (now : Q)
    (envs : list CycleEnv) : Exec LoopState :=
  st <- monitor_setup cfg io now ;; monitor_loop cfg envs st.

(** ** Start-up, lines 179-189 *)

(** The local [alarmNTriggers] of the start-up code: [1] unless
    [args.alarm_tri > 1]. *)
Definition main_alarmNTriggers (args : Args) : Z :=
  let alarmNTriggers := 1 in
  if 1 <? alarm_tri args then alarm_tri args else alarmNTriggers.

(** The arguments with which the start-up code calls [monitor]: the fourth
    one is [args.alarm_tri], not the local [alarmNTriggers]. *)
Definition main (args : Args) : Config :=
  let alarmNTriggers := main_alarmNTriggers args in
  let emailAlarmHandler :=
    EMailAlarmHandler (email_user args) (email_pass args) (email_dest args) in
  let buzzerAlarmHandler :=
    BuzzerAlarmHandler (buzzer_pin args) (buzzer_duration args) in
  {| adcNumber := adc args;
     readPeriodState := period args;
     alarmMinVoltage := alarm_min args;
     alarmNTriggers := alarm_tri args;
     alarmHandlers := [emailAlarmHandler; buzzerAlarmHandler];
     infoPeriod := info_period args |}.

(** ** Observations on cycles and runs *)

(** The reading of a cycle, [adcVal * ADC_SCALE_TO_V]. *)
Definition reading (env : CycleEnv) : float :=
  (float_of_int (adcVal env) * ADC_SCALE_TO_V)%float.

(** The test [adcValVolts < alarmMinVoltage] of a cycle. *)
Definition below (cfg : Config) (env : CycleEnv) : bool :=
  (reading env <? alarmMinVoltage cfg)%float.

(** The test [time.time() > nextInfoTrigger] of a cycle. *)
Definition info_due (env : CycleEnv) (st : LoopState) : bool :=
  Qgt_bool (now_check env) (nextInfoTrigger st).

(** The [statusMsg] formatted at line 132, before the state changes. *)
Definition status_before (cfg : Config) (env : CycleEnv) (st : LoopState)
    : Message :=
  StatusMsg (alarmState st) (adcNumber cfg) (adcVal env) (reading env)
            (numberOfAlarmsLeftToTrigger st).

(** The [statusMsg] formatted at line 143, when the alarm is raised. *)
Definition status_alarm (cfg : Config) (env : CycleEnv) (st : LoopState)
    : Message :=
  StatusMsg ALARM (adcNumber cfg) (adcVal env) (reading env)
            (numberOfAlarmsLeftToTrigger st - 1).

(** The cycle is the one that raises the alarm. *)
Definition alarm_edge (cfg : Config) (env : CycleEnv) (st : LoopState)
    : bool :=
  AlarmState_eqb (alarmState st) OK && below cfg env
  && (numberOfAlarmsLeftToTrigger st - 1 <? 1).

Definition is_buzzer (handler : AlarmHandler) : bool :=
  match handler with
  | BuzzerAlarmHandler _ _ => true
  | EMailAlarmHandler _ _ _ => false
  end.

(** The call [handler.trigger(_, severity)] lets an exception escape. *)
Definition trigger_raises (io : IOFaults) (severity : Z)
    (handler : AlarmHandler) : bool :=
  is_buzzer handler && (logging.ERROR <=? severity) && wpi_raises io.

Definition is_trigger (e : Event) : bool :=
  match e with
  | Trigger _ _ _ => true
  | _ => false
  end.

(** The handler calls of a trace, in order. *)
Definition triggers (tr : list Event) : list Event := filter is_trigger tr.

(** The handler calls a dispatch to every handler consists of. *)
Definition fan_out (handlers : list AlarmHandler) (msg : Message)
    (severity : Z) : list Event :=
  map (fun handler => Trigger handler msg severity) handlers.

(** The state a cycle leaves when no exception escapes, as a function of its
    inputs. *)
Definition next_state (cfg : Config) (env : CycleEnv) (st : LoopState)
    : LoopState :=
  let n := numberOfAlarmsLeftToTrigger st in
  let ok := AlarmState_eqb (alarmState st) OK in
  {| alarmState :=
       if ok then
         if below cfg env && (n - 1 <? 1) then ALARM else alarmState st
       else
         if negb (below cfg env) && (alarmNTriggers cfg <=? n + 1) then OK
         else alarmState st;
     numberOfAlarmsLeftToTrigger :=
       if ok then if below cfg env then n - 1 else alarmNTriggers cfg
       else if below cfg env then 0 else n + 1;
     readPeriod :=
       if ok && below cfg env then 1%float else readPeriodState cfg;
     nextInfoTrigger :=
       if info_due env st
       then (now_rearm env + inject_Z (infoPeriod cfg))%Q
       else nextInfoTrigger st |}.

(** The cycle raises the alarm and one of the handlers lets an exception
    escape. *)
Definition alarm_raises (cfg : Config) (env : CycleEnv) (st : LoopState)
    : bool :=
  alarm_edge cfg env st
  && existsb (trigger_raises (faults env) logging.CRITICAL)
             (alarmHandlers cfg).

(** The [statusMsg] the information alarm sends: line 143 rebinds it when
    the alarm is dispatched to at least one handler. *)
Definition status_after (cfg : Config) (env : CycleEnv) (st : LoopState)
    : Message :=
  if alarm_edge cfg env st then
    match alarmHandlers cfg with
    | [] => status_before cfg env st
    | _ :: _ => status_alarm cfg env st
    end
  else status_before cfg env st.

(** The state after a run in which no exception escapes. *)
Definition run_state (cfg : Config) (envs : list CycleEnv) (st : LoopState)
    : LoopState :=
  fold_left (fun s env => next_state cfg env s) envs st.

(** Some cycle of the run lets an exception escape. *)
Fixpoint loop_raises (cfg : Config) (envs : list CycleEnv) (st : LoopState)
    : bool :=
  match envs with
  | [] => false
  | env :: rest =>
      alarm_raises cfg env st || loop_raises cfg rest (next_state cfg env st)
  end.

(** No cycle of the run sees the tone generator fail. *)
Definition tone_generator_works (envs : list CycleEnv) : Prop :=
  Forall (fun env => wpi_raises (faults env) = false) envs.

(** The values of the locals when the loop is entered. *)
Definition initial_state (cfg : Config) (now : Q) : LoopState :=
  {| alarmState := OK;
     numberOfAlarmsLeftToTrigger := alarmNTriggers cfg;
     readPeriod := readPeriodState cfg;
     nextInfoTrigger := (now + inject_Z (infoPeriod cfg))%Q |}.

(** In [OK] the counter is the number of low readings still needed; in
    [ALARM] it is the number of good readings already seen. *)
Definition counter_in_range (cfg : Config) (st : LoopState) : Prop :=
  (alarmState st = OK
   /\ 1 <= numberOfAlarmsLeftToTrigger st <= alarmNTriggers cfg)
  \/ (alarmState st = ALARM
      /\ 0 <= numberOfAlarmsLeftToTrigger st <= alarmNTriggers cfg - 1).

(** The messages a trace logs, hands to a handler or mails. *)
Definition message_of (e : Event) : list Message :=
  match e with
  | Log _ (LogMessage msg) => [msg]
  | Trigger _ msg _ => [msg]
  | SendMail _ _ _ msg => [msg]
  | _ => []
  end.

Definition messages_of (tr : list Event) : list Message :=
  flat_map message_of tr.

(** The message reports the sample of the cycle and, as its voltage, that
    sample times [1.8 / 1023]. *)
Definition carries_reading (env : CycleEnv) (msg : Message) : Prop :=
  match msg with
  | StatusMsg _ _ raw volts _ =>
      raw = adcVal env /\ volts = (float_of_int raw * (1.8 / 1023))%float
  | ConfigMsg _ _ _ _ => False
  end.

(** The clock readings at which the cycles of a run dispatched the
    information alarm. *)
Fixpoint info_times (cfg : Config) (envs : list CycleEnv) (st : LoopState)
    : list Q :=
  match envs with
  | [] => []
  | env :: rest =>
      match snd (cycle cfg env st) with
      | Some st' =>
          (if info_due env st then [now_check env] else [])
          ++ info_times cfg rest st'
      | None => []
      end
  end.

(** Every stretch of one [infoPeriod] that lies between the start of
    [monitor] and the last cycle of the run contains a cycle that
    dispatched the information alarm. *)
Definition fires_once_per_interval (cfg : Config) (now : Q)
    (envs : list CycleEnv) : Prop :=
  forall a : Q,
    (now <= a)%Q ->
    (exists env,
       In env envs /\ (a + inject_Z (infoPeriod cfg) <= now_check env)%Q) ->
    exists t,
      In t (info_times cfg envs (initial_state cfg now))
      /\ (a <= t)%Q /\ (t <= a + inject_Z (infoPeriod cfg))%Q.

(** ** Sample inputs *)

(** The command line with the defaults of the argument parser, for a given
    [--alarm_tri] and [--info_period]. *)
Definition sample_args (alarm_tri info_period : Z) : Args :=
  {| adc := 1;
     period := 2%float;
     alarm_min := 0.7%float;
     alarm_tri := alarm_tri;
     email_user := "monitor@example.org";
     email_pass := "secret";
     email_dest := "operator@example.org";
     info_period := info_period;
     buzzer_pin := 27;
     buzzer_duration := 30 |}.

Definition sample_config (alarm_tri : Z) : Config :=
  main (sample_args alarm_tri 43200).

Definition all_working : IOFaults :=
  {| wpi_raises := false; smtp_raises := false |}.

Definition buzzer_broken : IOFaults :=
  {| wpi_raises := true; smtp_raises := false |}.

Definition mail_broken : IOFaults :=
  {| wpi_raises := false; smtp_raises := true |}.

(** A cycle that reads [adcVal] at clock time [now]. *)
Definition sample_cycle (adcVal : Z) (now : Q) (io : IOFaults) : CycleEnv :=
  {| adcVal := adcVal; now_check := now; now_rearm := now; faults := io |}.

(** A raw sample of 284 is about 0.5 V, one of 455 about 0.8 V. *)
Definition low_cycle : CycleEnv := sample_cycle 284 100 all_working.
Definition good_cycle : CycleEnv := sample_cycle 455 100 all_working.

(** The state right after the alarm has been raised. *)
Definition alarmed_state : LoopState :=
  {| alarmState := ALARM;
     numberOfAlarmsLeftToTrigger := 0;
     readPeriod := 1%float;
     nextInfoTrigger := 43200 |}.

(** Twelve cycles, two seconds apart, from clock time 2 to 24. *)
Definition steady_run : list CycleEnv :=
  map (fun k => sample_cycle 455 (inject_Z (2 * Z.of_nat k)) all_working)
      (seq 1 12).

(** The conversion of a 64-bit integer to a double as the processor does
    it: the primitive conversion of the magnitude, with the sign. *)
Definition double_of_int (z : Z) : float :=
  if z <? 0 then (- of_uint63 (Uint63.of_Z (- z)))%float
  else of_uint63 (Uint63.of_Z z).

(** A status message that reports the sample [adcVal] and the voltage
    [volts]. *)
Definition reports (adcVal : Z) (volts : float) (msg : Message) : Prop :=
  match msg with
  | StatusMsg _ _ raw v _ => raw = adcVal /\ v = volts
  | ConfigMsg _ _ _ _ => False
  end.

(** Samples around the default threshold of 0.7 V: 397 reads just below
    it, 398 just above. *)
Definition cycle_397 : CycleEnv := sample_cycle 397 100 all_working.
Definition cycle_398 : CycleEnv := sample_cycle 398 100 all_working.

(** ** The siren of the buzzer, lines 57-64

    What the event [Siren] stands for when the tone generator works: the
    calls [BuzzerAlarmHandler.trigger] makes between its two log records. *)

Inductive ToneCall : Type :=
| SoftToneCreate (pin : Z)
| SoftToneWrite (pin frequency : Z)
| ToneSleep (seconds : float)
| SoftToneStop (pin : Z).

(** [self.tones] and [self.toneDuration], as the constructor sets them. *)
Definition tones : list Z := [650; 900].
Definition toneDuration : list float := [0.4%float; 0.6%float].

(** One pass of [for (toneFrequency, toneDuration) in zip(self.tones,
    self.toneDuration)]. *)
Definition tone_pass (pin : Z) : list ToneCall :=
  flat_map (fun '(toneFrequency, toneDuration) =>
              [SoftToneWrite pin toneFrequency; ToneSleep toneDuration])
           (combine tones toneDuration).

(** [while (time.time() < endTime): ...], where [readings] are the values
    the successive calls of [time.time()] in the loop test return. The flag
    tells whether the loop has ended within these readings. *)
Fixpoint tone_loop (pin : Z) (endTime : Q) (readings : list Q)
    : list ToneCall * bool :=
  match readings with
  | [] => ([], false)
  | now :: later =>
      if Qgt_bool endTime now then
        let '(calls, ended) := tone_loop pin endTime later in
        (tone_pass pin ++ calls, ended)
      else ([], true)
  end.

(** Lines 57-64, with [startTime] the value of the first [time.time()]. *)
Definition siren (pin duration : Z) (startTime : Q) (readings : list Q)
    : list ToneCall * bool :=
  let endTime := (startTime + inject_Z duration)%Q in
  let '(calls, ended) := tone_loop pin endTime readings in
  (SoftToneCreate pin :: calls
     ++ (if ended then [SoftToneStop pin] else []),
   ended).

(** The readings of a clock that advances only while the siren sleeps: one
    second, the [0.4 + 0.6] of a pass, between two loop tests. *)
Definition sleeping_clock (startTime : Q) (tests : nat) : list Q :=
  map (fun k => (startTime + inject_Z (Z.of_nat k))%Q) (seq 0 tests).

(** ** Further observations *)

(** With a trigger count [N] of at most [1] the counter never delays a
    transition: in [OK] it lies between [N] and [1], in [ALARM] between
    [N - 1] and [0]. *)
Definition single_sample_inv (cfg : Config) (st : LoopState) : Prop :=
  (alarmState st = OK
   /\ alarmNTriggers cfg <= numberOfAlarmsLeftToTrigger st <= 1)
  \/ (alarmState st = ALARM
      /\ alarmNTriggers cfg - 1 <= numberOfAlarmsLeftToTrigger st <= 0).

(** The call the start-up code would make if it passed its local
    [alarmNTriggers] instead of [args.alarm_tri]. *)
Definition main_clamped (args : Args) : Config :=
  {| adcNumber := adcNumber (main args);
     readPeriodState := readPeriodState (main args);
     alarmMinVoltage := alarmMinVoltage (main args);
     alarmNTriggers := main_alarmNTriggers args;
     alarmHandlers := alarmHandlers (main args);
     infoPeriod := infoPeriod (main args) |}.

(** Which handler is called with which severity, message left out. *)
Definition call_of (e : Event) : list (AlarmHandler * Z) :=
  match e with
  | Trigger handler _ severity => [(handler, severity)]
  | _ => []
  end.

Definition calls (tr : list Event) : list (AlarmHandler * Z) :=
  flat_map call_of tr.

(** Two states agree on everything but the counter. *)
Definition same_course (st st' : LoopState) : Prop :=
  alarmState st = alarmState st'
  /\ readPeriod st = readPeriod st'
  /\ nextInfoTrigger st = nextInfoTrigger st'.

(** Two configurations agree on everything but the trigger count. *)
Definition same_but_count (cfg cfg' : Config) : Prop :=
  adcNumber cfg = adcNumber cfg'
  /\ readPeriodState cfg = readPeriodState cfg'
  /\ alarmMinVoltage cfg = alarmMinVoltage cfg'
  /\ alarmHandlers cfg = alarmHandlers cfg'
  /\ infoPeriod cfg = infoPeriod cfg'.

(** What a dispatch of [msg] with [severity] to the handlers of [cfg] can
    do: call a registered handler with that message and severity, sound a
    registered buzzer, send the mail of a registered mail handler, or log
    on behalf of one of them. *)
Definition dispatched (cfg : Config) (io : IOFaults) (msg : Message)
    (severity : Z) (e : Event) : Prop :=
  match e with
  | Trigger handler m s =>
      In handler (alarmHandlers cfg) /\ m = msg /\ s = severity
  | Siren pin duration =>
      In (BuzzerAlarmHandler pin duration) (alarmHandlers cfg)
      /\ logging.ERROR <= severity /\ wpi_raises io = false
  | SendMail username destination name m =>
      (exists password,
         In (EMailAlarmHandler username password destination)
            (alarmHandlers cfg))
      /\ name = getLoggingString severity /\ m = msg
      /\ smtp_raises io = false
  | Log _ LogMailFailed => smtp_raises io = true
  | Log _ LogSirenTriggering => logging.ERROR <= severity
  | Log _ LogSirenFinished =>
      logging.ERROR <= severity /\ wpi_raises io = false
  | _ => False
  end.

(** The bookkeeping of a cycle: sleeping, reading the ADC, and the log
    records of [monitor] itself. *)
Definition housekeeping (e : Event) : Prop :=
  match e with
  | Sleep _ | AnalogRead _ _ => True
  | Log _ (LogMessage _) | Log _ (LogLessThanMinimum _ _)
  | Log _ (LogGreaterThanMinimum _ _) | Log _ (LogNextInfoTrigger _) => True
  | _ => False
  end.

(** Where an event of a cycle can come from: the dispatch of the alarm, in
    a cycle that raises it; the dispatch of the information alarm, in a
    cycle in which it is due; or the bookkeeping. *)
Definition cycle_event (cfg : Config) (env : CycleEnv) (st : LoopState)
    (e : Event) : Prop :=
  (alarm_edge cfg env st = true
   /\ dispatched cfg (faults env) (status_alarm cfg env st)
                 logging.CRITICAL e)
  \/ (info_due env st = true
      /\ dispatched cfg (faults env) (status_after cfg env st)
                    logging.INFO e)
  \/ housekeeping e.

(** The sample command line with [--alarm_min] set. *)
Definition sample_args_with_threshold (alarm_min : float) : Args :=
  {| adc := 1;
     period := 2%float;
     alarm_min := alarm_min;
     alarm_tri := 1;
     email_user := "monitor@example.org";
     email_pass := "secret";
     email_dest := "operator@example.org";
     info_period := 43200;
     buzzer_pin := 27;
     buzzer_duration := 30 |}.

(** Each of [times] comes more than [gap] after the one before it, the
    first more than [gap] after [since]. *)
Fixpoint spaced (gap since : Q) (times : list Q) : Prop :=
  match times with
  | [] => True
  | t :: later => (since + gap < t)%Q /\ spaced gap t later
  end.

(** The events of the branch of [BuzzerAlarmHandler.trigger] behind the
    test of the severity. *)
Definition siren_event (e : Event) : Prop :=
  match e with
  | Siren _ _ | Log _ LogSirenTriggering | Log _ LogSirenFinished => True
  | _ => False
  end.

(** The events of [EMailAlarmHandler.trigger] after its entry. *)
Definition mail_event (e : Event) : Prop :=
  match e with
  | SendMail _ _ _ _ | Log _ LogMailFailed => True
  | _ => False
  end.

(** * Properties *)

(** ** The effect monad *)

Lemma snd_bind {A B : Type} (m : Exec A) (f : A -> Exec B) :
  snd (bind m f) = match snd m with Some a => snd (f a) | None => None end.
Proof. unfold bind. destruct (snd m); reflexivity. Qed.

Lemma fst_bind {A B : Type} (m : Exec A) (f : A -> Exec B) :
  fst (bind m f)
  = fst m ++ match snd m with Some a => fst (f a) | None => [] end.
Proof.
  unfold bind. destruct (snd m); cbn [fst]; [reflexivity|].
  now rewrite app_nil_r.
Qed.

Lemma triggers_app (t1 t2 : list Event) :
  triggers (t1 ++ t2) = triggers t1 ++ triggers t2.
Proof. apply filter_app. Qed.

(** ** The handlers *)

Lemma snd_trigger io handler msg severity :
  snd (trigger io handler msg severity)
  = if trigger_raises io severity handler then None else Some tt.
Proof.
  unfold trigger, trigger_raises.
  destruct handler as [pin duration|username password destination];
    cbn [is_buzzer andb].
  - unfold BuzzerAlarmHandler_trigger.
    destruct (logging.ERROR <=? severity), (wpi_raises io); reflexivity.
  - unfold EMailAlarmHandler_trigger. destruct (smtp_raises io); reflexivity.
Qed.

Lemma triggers_trigger io handler msg severity :
  triggers (fst (trigger io handler msg severity))
  = [Trigger handler msg severity].
Proof.
  unfold trigger.
  destruct handler as [pin duration|username password destination].
  - unfold BuzzerAlarmHandler_trigger.
    destruct (logging.ERROR <=? severity), (wpi_raises io); reflexivity.
  - unfold EMailAlarmHandler_trigger. destruct (smtp_raises io); reflexivity.
Qed.

(** A call with a severity below [ERROR] returns. *)
Lemma trigger_INFO_returns io handler msg :
  snd (trigger io handler msg logging.INFO) = Some tt.
Proof.
  rewrite snd_trigger. unfold trigger_raises.
  now rewrite andb_false_r.
Qed.

(** The information dispatch reaches every handler and returns. *)
Lemma info_dispatch io msg handlers :
  let run :=
    for_handlers (fun _ handler => trigger io handler msg logging.INFO)
                 tt handlers in
  snd run = Some tt /\ triggers (fst run) = fan_out handlers msg logging.INFO.
Proof.
  induction handlers as [|h rest [IHs IHt]]; cbn zeta in *; [now split|].
  cbn [for_handlers fan_out map].
  rewrite snd_bind, fst_bind, trigger_INFO_returns, triggers_app,
    triggers_trigger.
  split; [exact IHs|]. now rewrite IHt.
Qed.

(** The alarm dispatch of line 142: it fails exactly when one of the handlers
    raises, and otherwise reaches every handler with the same message. *)
Lemma alarm_dispatch io msg severity handlers s :
  let run :=
    for_handlers (fun _ handler => trigger io handler msg severity ;; ret msg)
                 s handlers in
  snd run
  = (if existsb (trigger_raises io severity) handlers then None
     else Some (match handlers with [] => s | _ :: _ => msg end))
  /\ (existsb (trigger_raises io severity) handlers = false ->
      triggers (fst run) = fan_out handlers msg severity).
Proof.
  revert s. induction handlers as [|h rest IH]; intros s; cbn zeta in *;
    [now split|].
  cbn [for_handlers fan_out map existsb].
  destruct (IH msg) as [IHs IHt].
  assert (Hb : snd (trigger io h msg severity ;; ret msg)
               = if trigger_raises io severity h then None else Some msg).
  { rewrite snd_bind, snd_trigger.
    now destruct (trigger_raises io severity h). }
  assert (Hf : triggers (fst (trigger io h msg severity ;; ret msg))
               = [Trigger h msg severity]).
  { rewrite fst_bind, triggers_app, triggers_trigger.
    now destruct (snd (trigger io h msg severity)). }
  rewrite snd_bind, fst_bind, triggers_app, Hb, Hf.
  destruct (trigger_raises io severity h); cbn [orb].
  - split; [reflexivity|discriminate].
  - split.
    + rewrite IHs. now destruct rest, (existsb _ _).
    + intros Hr. now rewrite IHt.
Qed.

(** ** One cycle *)

Lemma alarm_branch_outcome cfg env st :
  let run :=
    alarm_branch cfg (faults env) (adcVal env) (reading env) (alarmState st)
      (numberOfAlarmsLeftToTrigger st) (readPeriodState cfg)
      (status_before cfg env st) in
  let st' := next_state cfg env st in
  snd run
  = (if alarm_raises cfg env st then None
     else Some (alarmState st', numberOfAlarmsLeftToTrigger st',
                readPeriod st', status_after cfg env st))
  /\ (alarm_raises cfg env st = false ->
      triggers (fst run)
      = if alarm_edge cfg env st
        then fan_out (alarmHandlers cfg) (status_alarm cfg env st)
                     logging.CRITICAL
        else []).
Proof.
  cbn zeta.
  unfold alarm_branch, alarm_raises, status_after, alarm_edge, next_state.
  cbn [alarmState numberOfAlarmsLeftToTrigger readPeriod].
  fold (below cfg env).
  destruct (AlarmState_eqb (alarmState st) OK) eqn:Hok;
    destruct (below cfg env) eqn:Hb; cbn [andb negb].
  - rewrite snd_bind, fst_bind, triggers_app. cbn [emit snd fst triggers filter
      is_trigger app].
    destruct (numberOfAlarmsLeftToTrigger st - 1 <? 1) eqn:Hn.
    + pose proof (alarm_dispatch (faults env) (status_alarm cfg env st)
                    logging.CRITICAL (alarmHandlers cfg)
                    (status_before cfg env st)) as [Hs Ht].
      unfold status_alarm in Hs, Ht. rewrite snd_bind, fst_bind, Hs.
      destruct (existsb _ _).
      * split; [reflexivity|discriminate].
      * split; [now destruct (alarmHandlers cfg)|].
        intros _. cbn [ret fst]. rewrite app_nil_r. now apply Ht.
    + now split.
  - now split.
  - now split.
  - rewrite snd_bind, fst_bind, triggers_app. cbn [emit snd fst triggers filter
      is_trigger app].
    destruct (alarmNTriggers cfg <=? numberOfAlarmsLeftToTrigger st + 1);
      now split.
Qed.

Lemma info_branch_outcome cfg env st msg :
  let run := info_branch cfg env msg (nextInfoTrigger st) in
  snd run = Some (nextInfoTrigger (next_state cfg env st))
  /\ triggers (fst run)
     = if info_due env st
       then fan_out (alarmHandlers cfg) msg logging.INFO else [].
Proof.
  cbn zeta. unfold info_branch, next_state, info_due.
  cbn [nextInfoTrigger].
  destruct (Qgt_bool (now_check env) (nextInfoTrigger st)); [|now split].
  destruct (info_dispatch (faults env) msg (alarmHandlers cfg)) as [Hs Ht].
  rewrite snd_bind, fst_bind, triggers_app, Hs, Ht.
  split; [reflexivity|]. cbn. now rewrite app_nil_r.
Qed.

(** A cycle either lets the exception of an alarm handler escape or leaves
    [next_state]. *)
Lemma cycle_outcome cfg env st :
  snd (cycle cfg env st)
  = if alarm_raises cfg env st then None else Some (next_state cfg env st).
Proof.
  unfold cycle. fold (reading env). fold (status_before cfg env st).
  destruct (alarm_branch_outcome cfg env st) as [Hs _]. cbn zeta in Hs.
  rewrite !snd_bind. cbn [emit snd]. rewrite Hs.
  destruct (alarm_raises cfg env st); [reflexivity|].
  destruct (info_branch_outcome cfg env st (status_after cfg env st))
    as [Hi _].
  cbn zeta in Hi. rewrite snd_bind, Hi. cbn [ret snd].
  reflexivity.
Qed.

(** The handler calls of a cycle that returns: the alarm dispatch, if the
    cycle raises the alarm, then the information dispatch, if it is due. *)
Lemma cycle_triggers cfg env st :
  alarm_raises cfg env st = false ->
  triggers (fst (cycle cfg env st))
  = (if alarm_edge cfg env st
     then fan_out (alarmHandlers cfg) (status_alarm cfg env st)
                  logging.CRITICAL
     else [])
    ++ (if info_due env st
        then fan_out (alarmHandlers cfg) (status_after cfg env st)
                     logging.INFO
        else []).
Proof.
  intros Hr. unfold cycle. fold (reading env).
  fold (status_before cfg env st).
  destruct (alarm_branch_outcome cfg env st) as [Hs Ht]. cbn zeta in Hs, Ht.
  rewrite Hr in Hs. specialize (Ht Hr).
  destruct (info_branch_outcome cfg env st (status_after cfg env st))
    as [Hi Hit].
  cbn zeta in Hi, Hit.
  rewrite !fst_bind. cbn [emit snd fst]. rewrite Hs, fst_bind, Hi.
  rewrite !triggers_app, Ht, Hit.
  cbn [ret fst triggers filter is_trigger app]. now rewrite app_nil_r.
Qed.

(** Every cycle starts by sleeping for the current read period. *)
Lemma cycle_sleeps_first cfg env st :
  exists tr, fst (cycle cfg env st) = Sleep (readPeriod st) :: tr.
Proof.
  unfold cycle. rewrite fst_bind. cbn [emit fst snd app]. eauto.
Qed.

(** ** Runs of the loop *)

Lemma run_state_cons cfg env rest st :
  run_state cfg (env :: rest) st = run_state cfg rest (next_state cfg env st).
Proof. reflexivity. Qed.

Lemma returns_intro {A : Type} (m : Exec A) (a : A) :
  snd m = Some a -> exists tr, m = (tr, Some a).
Proof. destruct m as [tr r]. cbn. intros ->. eauto. Qed.

Lemma returns_elim {A : Type} (m : Exec A) tr (a : A) :
  m = (tr, Some a) -> snd m = Some a.
Proof. now intros ->. Qed.

Lemma monitor_loop_outcome cfg envs st :
  snd (monitor_loop cfg envs st)
  = if loop_raises cfg envs st then None else Some (run_state cfg envs st).
Proof.
  revert st. induction envs as [|env rest IH]; intros st; [reflexivity|].
  rewrite run_state_cons. cbn [monitor_loop loop_raises].
  rewrite snd_bind, cycle_outcome.
  destruct (alarm_raises cfg env st); [reflexivity|].
  cbn [orb]. apply IH.
Qed.

Lemma trigger_raises_wpi io severity handlers :
  wpi_raises io = false ->
  existsb (trigger_raises io severity) handlers = false.
Proof.
  intros Hw. induction handlers as [|h rest IH]; [reflexivity|].
  cbn [existsb]. rewrite IH. unfold trigger_raises. rewrite Hw.
  now rewrite andb_false_r.
Qed.

Lemma alarm_raises_wpi cfg env st :
  wpi_raises (faults env) = false -> alarm_raises cfg env st = false.
Proof.
  intros Hw. unfold alarm_raises.
  now rewrite trigger_raises_wpi, andb_false_r.
Qed.

Lemma alarm_raises_no_edge cfg env st :
  alarm_edge cfg env st = false -> alarm_raises cfg env st = false.
Proof. unfold alarm_raises. now intros ->. Qed.

Lemma loop_raises_wpi cfg envs st :
  tone_generator_works envs -> loop_raises cfg envs st = false.
Proof.
  intros Hw. revert st.
  induction Hw as [|env rest Hw _ IH]; intros st; [reflexivity|].
  cbn [loop_raises]. now rewrite alarm_raises_wpi, IH.
Qed.

Lemma AlarmState_eqb_eq a b : AlarmState_eqb a b = true <-> a = b.
Proof. destruct a, b; cbn; split; congruence. Qed.

Lemma AlarmState_eqb_neq a b : AlarmState_eqb a b = false <-> a <> b.
Proof. destruct a, b; cbn; split; congruence. Qed.

(** *** Counting down to the alarm *)

(** While fewer low readings have arrived than the counter holds, the state
    stays [OK], the counter decreases by one per reading and no handler is
    called for an alarm. *)
Lemma countdown cfg envs st :
  alarmState st = OK ->
  Forall (fun env => below cfg env = true) envs ->
  Z.of_nat (List.length envs) < numberOfAlarmsLeftToTrigger st ->
  loop_raises cfg envs st = false
  /\ alarmState (run_state cfg envs st) = OK
  /\ numberOfAlarmsLeftToTrigger (run_state cfg envs st)
     = numberOfAlarmsLeftToTrigger st - Z.of_nat (List.length envs).
Proof.
  intros Hok Hlow. revert st Hok.
  induction Hlow as [|env rest Hb _ IH]; intros st Hok Hlen.
  - cbn. repeat split; [assumption|lia].
  - cbn [List.length] in Hlen. rewrite Nat2Z.inj_succ in Hlen.
    assert (Hn : (numberOfAlarmsLeftToTrigger st - 1 <? 1) = false)
      by (apply Z.ltb_ge; lia).
    assert (Hedge : alarm_edge cfg env st = false).
    { unfold alarm_edge. now rewrite Hn, andb_false_r. }
    destruct (IH (next_state cfg env st)) as (Hr & Hs & Hc).
    + unfold next_state; cbn [alarmState]. now rewrite Hok, Hb, Hn.
    + unfold next_state; cbn [numberOfAlarmsLeftToTrigger].
      rewrite Hok, Hb. cbn. lia.
    + rewrite run_state_cons. cbn [loop_raises List.length].
      rewrite (alarm_raises_no_edge _ _ _ Hedge).
      repeat split; [exact Hr|exact Hs|]. rewrite Hc.
      unfold next_state; cbn [numberOfAlarmsLeftToTrigger].
      rewrite Hok, Hb, Nat2Z.inj_succ. cbn. lia.
Qed.

(** As many low readings as the counter holds raise the alarm, on the last
    of them. *)
Lemma countdown_ends cfg envs st :
  alarmState st = OK ->
  1 <= numberOfAlarmsLeftToTrigger st ->
  Forall (fun env => below cfg env = true) envs ->
  Z.of_nat (List.length envs) = numberOfAlarmsLeftToTrigger st ->
  alarmState (run_state cfg envs st) = ALARM
  /\ numberOfAlarmsLeftToTrigger (run_state cfg envs st) = 0.
Proof.
  intros Hok Hpos Hlow. revert st Hok Hpos.
  induction Hlow as [|env rest Hb _ IH]; intros st Hok Hpos Hlen.
  - cbn in Hlen. lia.
  - cbn [List.length] in Hlen. rewrite Nat2Z.inj_succ in Hlen.
    rewrite run_state_cons.
    destruct (Z.eq_dec (numberOfAlarmsLeftToTrigger st) 1) as [H1|H1].
    + assert (rest = []) as -> by (destruct rest; [easy|cbn in Hlen; lia]).
      unfold run_state, next_state.
      cbn [fold_left alarmState numberOfAlarmsLeftToTrigger].
      rewrite Hok, Hb, H1. now split.
    + assert (Hn : (numberOfAlarmsLeftToTrigger st - 1 <? 1) = false)
        by (apply Z.ltb_ge; lia).
      apply IH; unfold next_state;
        cbn [alarmState numberOfAlarmsLeftToTrigger];
        rewrite Hok, Hb, ?Hn; cbn; [reflexivity|lia|lia].
Qed.

(** *** Recovering from the alarm *)

(** Outside [OK] no cycle raises the alarm, so no exception can escape. *)
Lemma alarm_edge_outside_OK cfg env st :
  alarmState st <> OK -> alarm_edge cfg env st = false.
Proof.
  intros Hs. apply AlarmState_eqb_neq in Hs. unfold alarm_edge.
  now rewrite Hs.
Qed.

(** While the good readings do not yet bring the counter up to the trigger
    count, the state is unchanged and the counter increases by one per
    reading. *)
Lemma recovery cfg envs st :
  alarmState st <> OK ->
  Forall (fun env => below cfg env = false) envs ->
  numberOfAlarmsLeftToTrigger st + Z.of_nat (List.length envs)
  < alarmNTriggers cfg ->
  loop_raises cfg envs st = false
  /\ alarmState (run_state cfg envs st) = alarmState st
  /\ numberOfAlarmsLeftToTrigger (run_state cfg envs st)
     = numberOfAlarmsLeftToTrigger st + Z.of_nat (List.length envs).
Proof.
  intros Hs Hgood. revert st Hs.
  induction Hgood as [|env rest Hb _ IH]; intros st Hs Hlen.
  - cbn. repeat split; lia.
  - cbn [List.length] in Hlen. rewrite Nat2Z.inj_succ in Hlen.
    pose proof (proj2 (AlarmState_eqb_neq _ _) Hs) as Hs'.
    assert (Hn : (alarmNTriggers cfg <=? numberOfAlarmsLeftToTrigger st + 1)
                 = false) by (apply Z.leb_gt; lia).
    assert (Hst : alarmState (next_state cfg env st) = alarmState st).
    { unfold next_state; cbn [alarmState]. now rewrite Hs', Hb, Hn. }
    assert (Hc : numberOfAlarmsLeftToTrigger (next_state cfg env st)
                 = numberOfAlarmsLeftToTrigger st + 1).
    { unfold next_state; cbn [numberOfAlarmsLeftToTrigger].
      now rewrite Hs', Hb. }
    destruct (IH (next_state cfg env st)) as (Hr & Hs2 & Hc2).
    + now rewrite Hst.
    + rewrite Hc. lia.
    + rewrite run_state_cons. cbn [loop_raises List.length].
      rewrite (alarm_raises_no_edge _ _ _ (alarm_edge_outside_OK _ _ _ Hs)).
      repeat split; [exact Hr|congruence|].
      rewrite Hc2, Hc, Nat2Z.inj_succ. lia.
Qed.

(** The good reading that brings the counter up to the trigger count ends
    the alarm. *)
Lemma recovery_ends cfg envs st :
  alarmState st <> OK ->
  Forall (fun env => below cfg env = false) envs ->
  (0 < List.length envs)%nat ->
  numberOfAlarmsLeftToTrigger st + Z.of_nat (List.length envs)
  = alarmNTriggers cfg ->
  loop_raises cfg envs st = false
  /\ alarmState (run_state cfg envs st) = OK
  /\ numberOfAlarmsLeftToTrigger (run_state cfg envs st) = alarmNTriggers cfg.
Proof.
  intros Hs Hgood. revert st Hs.
  induction Hgood as [|env rest Hb _ IH]; intros st Hs Hpos Hlen.
  - cbn in Hpos. lia.
  - cbn [List.length] in Hlen. rewrite Nat2Z.inj_succ in Hlen.
    pose proof (proj2 (AlarmState_eqb_neq _ _) Hs) as Hs'.
    rewrite run_state_cons. cbn [loop_raises].
    rewrite (alarm_raises_no_edge _ _ _ (alarm_edge_outside_OK _ _ _ Hs)).
    cbn [orb].
    destruct rest as [|env2 rest2].
    + cbn in Hlen. cbn [loop_raises run_state fold_left].
      unfold next_state; cbn [alarmState numberOfAlarmsLeftToTrigger].
      rewrite Hs', Hb.
      replace (alarmNTriggers cfg <=? numberOfAlarmsLeftToTrigger st + 1)
        with true by (symmetry; apply Z.leb_le; lia).
      cbn. repeat split. lia.
    + assert (Hn : (alarmNTriggers cfg
                    <=? numberOfAlarmsLeftToTrigger st + 1) = false).
      { apply Z.leb_gt. cbn [List.length] in Hlen. lia. }
      apply IH.
      * unfold next_state; cbn [alarmState]. now rewrite Hs', Hb, Hn.
      * cbn [List.length]. lia.
      * unfold next_state; cbn [numberOfAlarmsLeftToTrigger].
        rewrite Hs', Hb. lia.
Qed.

(** ** Comparisons of doubles *)

Lemma SFcompare_antisym (a b : spec_float) :
  SFcompare b a = option_map CompOpp (SFcompare a b).
Proof.
  destruct a as [sa|sa| |sa ma ea], b as [sb|sb| |sb mb eb]; cbn;
    try destruct sa; try destruct sb; try reflexivity;
    rewrite (Z.compare_antisym ea eb); destruct (ea ?= eb); cbn;
    try reflexivity;
    change (Pos.compare_cont Eq mb ma) with (Pos.compare mb ma);
    change (Pos.compare_cont Eq ma mb) with (Pos.compare ma mb);
    rewrite (Pos.compare_antisym ma mb); try reflexivity;
    now rewrite CompOpp_involutive.
Qed.

(** A reading at or above the threshold fails the test
    [adcValVolts < alarmMinVoltage]. *)
Lemma at_or_above_not_below cfg env :
  (alarmMinVoltage cfg <=? reading env)%float = true -> below cfg env = false.
Proof.
  unfold below. rewrite leb_spec, ltb_spec. unfold SFleb, SFltb.
  rewrite (SFcompare_antisym (Prim2SF (alarmMinVoltage cfg))).
  destruct (SFcompare _ _) as [[]|]; cbn; congruence.
Qed.

(** ** Start-up *)

Lemma monitor_setup_outcome cfg io now :
  snd (monitor_setup cfg io now) = Some (initial_state cfg now)
  /\ triggers (fst (monitor_setup cfg io now))
     = fan_out (alarmHandlers cfg)
         (ConfigMsg (adcNumber cfg) (readPeriodState cfg)
                    (alarmMinVoltage cfg) (alarmNTriggers cfg))
         logging.INFO.
Proof.
  unfold monitor_setup.
  match goal with
  | |- context [for_handlers ?b tt ?l] =>
      destruct (info_dispatch io
                  (ConfigMsg (adcNumber cfg) (readPeriodState cfg)
                             (alarmMinVoltage cfg) (alarmNTriggers cfg)) l)
        as [Hs Ht]
  end.
  cbn zeta in Hs, Ht.
  rewrite snd_bind, fst_bind, triggers_app, Hs, Ht.
  split; [reflexivity|]. cbn. now rewrite app_nil_r.
Qed.

Lemma monitor_outcome cfg io now envs :
  snd (monitor cfg io now envs)
  = if loop_raises cfg envs (initial_state cfg now) then None
    else Some (run_state cfg envs (initial_state cfg now)).
Proof.
  unfold monitor. destruct (monitor_setup_outcome cfg io now) as [Hs _].
  rewrite snd_bind, Hs. apply monitor_loop_outcome.
Qed.

(** ** The range of the counter *)

Lemma next_state_in_range cfg env st :
  1 <= alarmNTriggers cfg ->
  counter_in_range cfg st -> counter_in_range cfg (next_state cfg env st).
Proof.
  intros HN [[Hs Hc]|[Hs Hc]]; unfold counter_in_range, next_state;
    cbn [alarmState numberOfAlarmsLeftToTrigger]; rewrite Hs;
    cbn [AlarmState_eqb]; destruct (below cfg env); cbn [andb negb].
  - destruct (Z.ltb_spec (numberOfAlarmsLeftToTrigger st - 1) 1);
      [right|left]; split; [reflexivity|lia|reflexivity|lia].
  - left. split; [reflexivity|lia].
  - right. split; [reflexivity|lia].
  - destruct (Z.leb_spec (alarmNTriggers cfg)
                (numberOfAlarmsLeftToTrigger st + 1));
      [left|right]; split; [reflexivity|lia|reflexivity|lia].
Qed.

Lemma run_state_in_range cfg envs st :
  1 <= alarmNTriggers cfg ->
  counter_in_range cfg st -> counter_in_range cfg (run_state cfg envs st).
Proof.
  intros HN. revert st.
  induction envs as [|env rest IH]; intros st Hin; [exact Hin|].
  rewrite run_state_cons. now apply IH, next_state_in_range.
Qed.

Lemma initial_state_in_range cfg now :
  1 <= alarmNTriggers cfg -> counter_in_range cfg (initial_state cfg now).
Proof. intros HN. left. cbn. split; [reflexivity|lia]. Qed.

(** ** The alarm state machine *)

(** C1. With a trigger count [N >= 1], from [OK] with the counter at [N],
    a run of readings that are all strictly below the threshold leaves the
    state [OK] with the counter at [N] minus their number as long as there
    are fewer than [N] of them, and at any such point one reading that is
    not below the threshold (in particular one at or above it, see
    [at_or_above_not_below]) puts the counter back to [N]; the [N]-th
    reading of the run switches the state to [ALARM], with the counter
    at [0]. *)
Theorem C1_alarm_after_N_consecutive_low_readings cfg st envs :
  1 <= alarmNTriggers cfg ->
  alarmState st = OK ->
  numberOfAlarmsLeftToTrigger st = alarmNTriggers cfg ->
  Forall (fun env => below cfg env = true) envs ->
  (Z.of_nat (List.length envs) < alarmNTriggers cfg ->
   exists tr st',
     monitor_loop cfg envs st = (tr, Some st')
     /\ alarmState st' = OK
     /\ numberOfAlarmsLeftToTrigger st'
        = alarmNTriggers cfg - Z.of_nat (List.length envs)
     /\ forall env, below cfg env = false ->
        exists tr2 st2,
          cycle cfg env st' = (tr2, Some st2)
          /\ alarmState st2 = OK
          /\ numberOfAlarmsLeftToTrigger st2 = alarmNTriggers cfg)
  /\ (Z.of_nat (List.length envs) = alarmNTriggers cfg ->
      tone_generator_works envs ->
      exists tr st',
        monitor_loop cfg envs st = (tr, Some st')
        /\ alarmState st' = ALARM
        /\ numberOfAlarmsLeftToTrigger st' = 0).
Proof.
  intros HN Hok Hc Hlow. split.
  - intros Hlen.
    destruct (countdown cfg envs st Hok Hlow) as (Hr & Hs & Hn); [lia|].
    pose proof (monitor_loop_outcome cfg envs st) as Ho. rewrite Hr in Ho.
    destruct (returns_intro _ _ Ho) as [tr Htr].
    exists tr, (run_state cfg envs st).
    repeat split; [exact Htr|exact Hs|lia|].
    intros env Hb.
    assert (He : alarm_edge cfg env (run_state cfg envs st) = false).
    { unfold alarm_edge. now rewrite Hb, andb_false_r. }
    pose proof (cycle_outcome cfg env (run_state cfg envs st)) as Hcy.
    rewrite (alarm_raises_no_edge _ _ _ He) in Hcy.
    destruct (returns_intro _ _ Hcy) as [tr2 Htr2].
    exists tr2, (next_state cfg env (run_state cfg envs st)).
    split; [exact Htr2|].
    unfold next_state; cbn [alarmState numberOfAlarmsLeftToTrigger].
    rewrite Hs, Hb. now split.
  - intros Hlen Hw.
    destruct (countdown_ends cfg envs st Hok) as [Hs Hz];
      [lia|exact Hlow|lia|].
    pose proof (monitor_loop_outcome cfg envs st) as Ho.
    rewrite (loop_raises_wpi cfg envs st Hw) in Ho.
    destruct (returns_intro _ _ Ho) as [tr Htr].
    now exists tr, (run_state cfg envs st).
Qed.

(** With [N = 3]: two low readings leave [OK], the third raises the
    alarm. *)
Lemma C1_witness :
  exists tr st',
    monitor_loop (sample_config 3) [low_cycle; low_cycle; low_cycle]
      (initial_state (sample_config 3) 0) = (tr, Some st')
    /\ alarmState st' = ALARM
    /\ numberOfAlarmsLeftToTrigger st' = 0.
Proof.
  refine (proj2 (C1_alarm_after_N_consecutive_low_readings
                   (sample_config 3) (initial_state (sample_config 3) 0)
                   [low_cycle; low_cycle; low_cycle] _ _ _ _) _ _).
  - cbn. lia.
  - reflexivity.
  - reflexivity.
  - repeat constructor.
  - reflexivity.
  - repeat constructor.
Defined.

(** C2. With a trigger count [N >= 1], from [ALARM] with a recovery
    counter [c] ([c = 0] when the alarm has just been raised or a low
    reading has just been seen), a run of readings none of which is below
    the threshold leaves the state [ALARM] with the counter at [c] plus
    their number as long as that is less than [N], and at any such point one
    reading below the threshold puts the counter back to [0]; the reading
    that brings the counter to [N] switches the state back to [OK]. From
    [c = 0] this takes exactly [N] readings. No exception can escape
    meanwhile. *)
Theorem C2_recovery_after_N_consecutive_good_readings cfg st envs :
  1 <= alarmNTriggers cfg ->
  alarmState st = ALARM ->
  Forall (fun env => below cfg env = false) envs ->
  (numberOfAlarmsLeftToTrigger st + Z.of_nat (List.length envs)
   < alarmNTriggers cfg ->
   exists tr st',
     monitor_loop cfg envs st = (tr, Some st')
     /\ alarmState st' = ALARM
     /\ numberOfAlarmsLeftToTrigger st'
        = numberOfAlarmsLeftToTrigger st + Z.of_nat (List.length envs)
     /\ forall env, below cfg env = true ->
        exists tr2 st2,
          cycle cfg env st' = (tr2, Some st2)
          /\ alarmState st2 = ALARM
          /\ numberOfAlarmsLeftToTrigger st2 = 0)
  /\ ((0 < List.length envs)%nat ->
      numberOfAlarmsLeftToTrigger st + Z.of_nat (List.length envs)
      = alarmNTriggers cfg ->
      exists tr st',
        monitor_loop cfg envs st = (tr, Some st')
        /\ alarmState st' = OK).
Proof.
  intros HN Hal Hgood.
  assert (Hne : alarmState st <> OK) by (rewrite Hal; discriminate).
  split.
  - intros Hlen.
    destruct (recovery cfg envs st Hne Hgood Hlen) as (Hr & Hs & Hn).
    pose proof (monitor_loop_outcome cfg envs st) as Ho. rewrite Hr in Ho.
    destruct (returns_intro _ _ Ho) as [tr Htr].
    exists tr, (run_state cfg envs st).
    repeat split; [exact Htr|congruence|exact Hn|].
    intros env Hb.
    assert (Hne' : alarmState (run_state cfg envs st) <> OK)
      by (rewrite Hs; exact Hne).
    pose proof (cycle_outcome cfg env (run_state cfg envs st)) as Hcy.
    rewrite (alarm_raises_no_edge _ _ _
               (alarm_edge_outside_OK cfg env _ Hne')) in Hcy.
    destruct (returns_intro _ _ Hcy) as [tr2 Htr2].
    exists tr2, (next_state cfg env (run_state cfg envs st)).
    split; [exact Htr2|].
    unfold next_state; cbn [alarmState numberOfAlarmsLeftToTrigger].
    rewrite Hs, Hal, Hb. now split.
  - intros Hpos Hlen.
    destruct (recovery_ends cfg envs st Hne Hgood Hpos Hlen)
      as (Hr & Hs & _).
    pose proof (monitor_loop_outcome cfg envs st) as Ho. rewrite Hr in Ho.
    destruct (returns_intro _ _ Ho) as [tr Htr].
    now exists tr, (run_state cfg envs st).
Qed.

(** With [N = 3], the readings low, good, low, low leave the counter at 2,
    3, 2 and 1 without raising the alarm; one more low reading raises it. *)
Lemma interrupted_countdown :
  let cfg := sample_config 3 in
  let readings := [low_cycle; good_cycle; low_cycle; low_cycle; low_cycle] in
  map (fun k =>
         let st := run_state cfg (firstn k readings) (initial_state cfg 0) in
         (alarmState st, numberOfAlarmsLeftToTrigger st))
      (seq 1 5)
  = [(OK, 2); (OK, 3); (OK, 2); (OK, 1); (ALARM, 0)].
Proof. reflexivity. Qed.

(** With [N = 3]: the third good reading in a row ends the alarm. *)
Lemma C2_witness :
  exists tr st',
    monitor_loop (sample_config 3) [good_cycle; good_cycle; good_cycle]
      alarmed_state = (tr, Some st')
    /\ alarmState st' = OK.
Proof.
  refine (proj2 (C2_recovery_after_N_consecutive_good_readings
                   (sample_config 3) alarmed_state
                   [good_cycle; good_cycle; good_cycle] _ _ _) _ _).
  - cbn. lia.
  - reflexivity.
  - repeat constructor.
  - cbn. lia.
  - reflexivity.
Defined.

(** A run of [monitor] that returns leaves [run_state] of the initial
    state. *)
Lemma monitor_returns cfg io now envs tr st :
  monitor cfg io now envs = (tr, Some st) ->
  st = run_state cfg envs (initial_state cfg now).
Proof.
  intros Hrun. apply returns_elim in Hrun. rewrite monitor_outcome in Hrun.
  destruct (loop_raises cfg envs (initial_state cfg now)); congruence.
Qed.

Lemma monitor_in_range cfg io now envs tr st :
  1 <= alarmNTriggers cfg ->
  monitor cfg io now envs = (tr, Some st) -> counter_in_range cfg st.
Proof.
  intros HN Hrun. rewrite (monitor_returns _ _ _ _ _ _ Hrun).
  now apply run_state_in_range, initial_state_in_range.
Qed.

(** A cycle that returns leaves [next_state]. *)
Lemma cycle_returns cfg env st tr st' :
  cycle cfg env st = (tr, Some st') -> st' = next_state cfg env st.
Proof.
  intros Hcy. apply returns_elim in Hcy. rewrite cycle_outcome in Hcy.
  destruct (alarm_raises cfg env st); congruence.
Qed.

(** C4. With a trigger count [N >= 1], after any number of cycles of
    [monitor], whatever the readings, the counter lies in [[0, N]]: in
    [[1, N]] while the state is [OK] and in [[0, N - 1]] while it is
    [ALARM], and the state is one of the two. The run reaches that point
    whenever the tone generator does not fail. *)
Theorem C4_counter_stays_in_range cfg io now envs :
  1 <= alarmNTriggers cfg ->
  (tone_generator_works envs ->
   exists tr st, monitor cfg io now envs = (tr, Some st))
  /\ forall tr st,
       monitor cfg io now envs = (tr, Some st) ->
       0 <= numberOfAlarmsLeftToTrigger st <= alarmNTriggers cfg
       /\ counter_in_range cfg st.
Proof.
  intros HN. pose proof (monitor_outcome cfg io now envs) as Ho. split.
  - intros Hw. rewrite (loop_raises_wpi _ _ _ Hw) in Ho.
    destruct (returns_intro _ _ Ho) as [tr Htr]. eauto.
  - intros tr st Hrun.
    pose proof (monitor_in_range cfg io now envs tr st HN Hrun) as Hin.
    split; [|exact Hin]. destruct Hin as [[_ Hc]|[_ Hc]]; lia.
Qed.

(** With [N = 2], over low, low, good, low readings. *)
Lemma C4_witness :
  exists tr st,
    monitor (sample_config 2) all_working 0
      [low_cycle; low_cycle; good_cycle; low_cycle] = (tr, Some st)
    /\ 0 <= numberOfAlarmsLeftToTrigger st <= 2.
Proof.
  pose (H := C4_counter_stays_in_range (sample_config 2) all_working 0
               [low_cycle; low_cycle; good_cycle; low_cycle]
               ltac:(cbn; lia)).
  destruct (proj1 H ltac:(repeat constructor)) as (tr & st & Hrun).
  exists tr, st. split; [exact Hrun|]. exact (proj1 (proj2 H tr st Hrun)).
Defined.

(** C10. With a trigger count [N >= 1], whenever a cycle of a run of
    [monitor] switches the state from outside [OK] back to [OK], the
    counter, which that cycle only increments, equals [N]; so from there
    fewer than [N] low readings in a row never raise the alarm. *)
Theorem C10_recovery_leaves_counter_at_N cfg io now envs env tr st tr' st' :
  1 <= alarmNTriggers cfg ->
  monitor cfg io now envs = (tr, Some st) ->
  alarmState st <> OK ->
  cycle cfg env st = (tr', Some st') ->
  alarmState st' = OK ->
  numberOfAlarmsLeftToTrigger st' = numberOfAlarmsLeftToTrigger st + 1
  /\ numberOfAlarmsLeftToTrigger st' = alarmNTriggers cfg
  /\ forall lows,
       Forall (fun env => below cfg env = true) lows ->
       Z.of_nat (List.length lows) < alarmNTriggers cfg ->
       exists tr2 st2,
         monitor_loop cfg lows st' = (tr2, Some st2) /\ alarmState st2 = OK.
Proof.
  intros HN Hrun Hne Hcy Hok'.
  destruct (monitor_in_range cfg io now envs tr st HN Hrun)
    as [[Hs _]|[Hs Hc]]; [contradiction|].
  pose proof (cycle_returns _ _ _ _ _ Hcy) as Hst'.
  assert (Hcount : numberOfAlarmsLeftToTrigger st'
                   = numberOfAlarmsLeftToTrigger st + 1
                   /\ numberOfAlarmsLeftToTrigger st' = alarmNTriggers cfg).
  { revert Hok'. rewrite Hst'. unfold next_state;
      cbn [alarmState numberOfAlarmsLeftToTrigger]. rewrite Hs.
    cbn [AlarmState_eqb]. destruct (below cfg env); cbn [negb andb];
      [discriminate|].
    destruct (Z.leb_spec (alarmNTriggers cfg)
                (numberOfAlarmsLeftToTrigger st + 1)); [|discriminate].
    intros _. split; [reflexivity|lia]. }
  destruct Hcount as [Hinc HcN]. repeat split; [exact Hinc|exact HcN|].
  intros lows Hlow Hlen.
  destruct (countdown cfg lows st' Hok' Hlow) as (Hr & Hs2 & _); [lia|].
  pose proof (monitor_loop_outcome cfg lows st') as Ho. rewrite Hr in Ho.
  destruct (returns_intro _ _ Ho) as [tr2 Htr2].
  now exists tr2, (run_state cfg lows st').
Qed.

(** With [N = 2]: low, low raises the alarm; good, good ends it with the
    counter at 2. *)
Lemma C10_witness :
  let cfg := sample_config 2 in
  let st := run_state cfg [low_cycle; low_cycle; good_cycle]
              (initial_state cfg 0) in
  alarmState st = ALARM
  /\ alarmState (next_state cfg good_cycle st) = OK
  /\ numberOfAlarmsLeftToTrigger (next_state cfg good_cycle st) = 2.
Proof.
  cbn zeta. split; [reflexivity|]. split; [reflexivity|].
  refine (proj1 (proj2
    (C10_recovery_leaves_counter_at_N (sample_config 2) all_working 0
       [low_cycle; low_cycle; good_cycle] good_cycle
       (fst (monitor (sample_config 2) all_working 0
               [low_cycle; low_cycle; good_cycle]))
       (run_state (sample_config 2) [low_cycle; low_cycle; good_cycle]
          (initial_state (sample_config 2) 0))
       (fst (cycle (sample_config 2) good_cycle
               (run_state (sample_config 2)
                  [low_cycle; low_cycle; good_cycle]
                  (initial_state (sample_config 2) 0))))
       (next_state (sample_config 2) good_cycle
          (run_state (sample_config 2) [low_cycle; low_cycle; good_cycle]
             (initial_state (sample_config 2) 0)))
       _ _ _ _ _))).
  - cbn. lia.
  - reflexivity.
  - discriminate.
  - reflexivity.
  - reflexivity.
Defined.

(** A cycle returns unless it raises the alarm while the tone generator
    fails. *)
Lemma cycle_total cfg env st :
  wpi_raises (faults env) = false \/ alarm_edge cfg env st = false ->
  exists tr, cycle cfg env st = (tr, Some (next_state cfg env st)).
Proof.
  intros H. apply returns_intro. rewrite cycle_outcome.
  destruct H as [H|H];
    [rewrite (alarm_raises_wpi _ _ _ H)|rewrite (alarm_raises_no_edge _ _ _ H)];
    reflexivity.
Qed.

(** ** Notifications *)

(** C3. In a cycle that switches the state from [OK] to [ALARM], the
    handlers are called with severity [CRITICAL] once each, in order and
    with one and the same status message, and with no other severity except
    for the information alarm when it is due in the same cycle. In a cycle
    that switches the state from [ALARM] back to [OK], the state machine
    calls no handler: the only calls of that cycle are those of the
    information alarm, if it is due. *)
Theorem C3_one_critical_on_alarm_none_on_recovery cfg env st tr st' :
  cycle cfg env st = (tr, Some st') ->
  (alarmState st = OK -> alarmState st' = ALARM ->
   triggers tr
   = fan_out (alarmHandlers cfg) (status_alarm cfg env st) logging.CRITICAL
     ++ (if info_due env st
         then fan_out (alarmHandlers cfg) (status_after cfg env st)
                      logging.INFO
         else []))
  /\ (alarmState st = ALARM -> alarmState st' = OK ->
      triggers tr
      = if info_due env st
        then fan_out (alarmHandlers cfg) (status_before cfg env st)
                     logging.INFO
        else []).
Proof.
  intros Hcy. pose proof (cycle_returns _ _ _ _ _ Hcy) as Hst'.
  assert (Hr : alarm_raises cfg env st = false).
  { apply returns_elim in Hcy. rewrite cycle_outcome in Hcy.
    now destruct (alarm_raises cfg env st). }
  assert (Htr : tr = fst (cycle cfg env st)) by now rewrite Hcy.
  rewrite Htr, (cycle_triggers cfg env st Hr). split.
  - intros Hok Hal.
    assert (He : alarm_edge cfg env st = true).
    { revert Hal. rewrite Hst'. unfold next_state, alarm_edge.
      cbn [alarmState]. rewrite Hok. cbn [AlarmState_eqb andb].
      now destruct (below cfg env && _). }
    now rewrite He.
  - intros Hal _.
    assert (He : alarm_edge cfg env st = false).
    { apply alarm_edge_outside_OK. rewrite Hal. discriminate. }
    unfold status_after. now rewrite He.
Qed.

(** With [N = 1], the first low reading calls the mail handler and the
    buzzer handler, each once, with severity [CRITICAL]. *)
Lemma C3_witness :
  let cfg := sample_config 1 in
  let st := initial_state cfg 0 in
  triggers (fst (cycle cfg low_cycle st))
  = [Trigger (EMailAlarmHandler "monitor@example.org" "secret"
                                "operator@example.org")
             (status_alarm cfg low_cycle st) logging.CRITICAL;
     Trigger (BuzzerAlarmHandler 27 30)
             (status_alarm cfg low_cycle st) logging.CRITICAL].
Proof.
  cbn zeta.
  refine (proj1
    (C3_one_critical_on_alarm_none_on_recovery (sample_config 1) low_cycle
       (initial_state (sample_config 1) 0)
       (fst (cycle (sample_config 1) low_cycle
               (initial_state (sample_config 1) 0)))
       (next_state (sample_config 1) low_cycle
          (initial_state (sample_config 1) 0)) _) _ _);
    reflexivity.
Defined.

(** ** The read period *)

(** C7. Every cycle first sleeps for the read period the previous cycle
    left. A cycle that returns leaves the read period at [1] if it saw a
    reading below the threshold while the state was [OK], whether or not
    that reading raised the alarm, so that the next cycle sleeps for [1];
    in every other case, in particular whenever the state was not [OK], it
    leaves the steady value [readPeriodState], to which line 129 resets the
    period in every cycle. By [cycle_total] a cycle returns unless it raises
    the alarm while the tone generator fails. *)
Theorem C7_read_period cfg env st tr st' :
  cycle cfg env st = (tr, Some st') ->
  (exists rest, tr = Sleep (readPeriod st) :: rest)
  /\ (alarmState st = OK -> below cfg env = true ->
      readPeriod st' = 1%float
      /\ forall env2,
           exists rest2, fst (cycle cfg env2 st') = Sleep 1%float :: rest2)
  /\ (alarmState st = OK -> below cfg env = false ->
      readPeriod st' = readPeriodState cfg)
  /\ (alarmState st <> OK -> readPeriod st' = readPeriodState cfg).
Proof.
  intros Hcy. pose proof (cycle_returns _ _ _ _ _ Hcy) as Hst'.
  split; [|split; [|split]].
  - destruct (cycle_sleeps_first cfg env st) as [rest Hrest].
    exists rest. now rewrite Hcy in Hrest.
  - intros Hok Hb.
    assert (Hp : readPeriod st' = 1%float).
    { rewrite Hst'. unfold next_state; cbn [readPeriod]. now rewrite Hok, Hb. }
    split; [exact Hp|].
    intros env2. destruct (cycle_sleeps_first cfg env2 st') as [rest2 Hrest2].
    exists rest2. now rewrite <- Hp.
  - intros Hok Hb. rewrite Hst'. unfold next_state; cbn [readPeriod].
    now rewrite Hok, Hb.
  - intros Hne. apply AlarmState_eqb_neq in Hne. rewrite Hst'.
    unfold next_state; cbn [readPeriod]. now rewrite Hne.
Qed.

(** With [N = 3], the first low reading leaves the read period at 1. *)
Lemma C7_witness :
  readPeriod (next_state (sample_config 3) low_cycle
                (initial_state (sample_config 3) 0)) = 1%float.
Proof.
  refine (proj1 (proj1 (proj2
    (C7_read_period (sample_config 3) low_cycle
       (initial_state (sample_config 3) 0)
       (fst (cycle (sample_config 3) low_cycle
               (initial_state (sample_config 3) 0)))
       (next_state (sample_config 3) low_cycle
          (initial_state (sample_config 3) 0)) _)) _ _));
    reflexivity.
Defined.

(** ** The readings *)

Lemma messages_of_app t1 t2 :
  messages_of (t1 ++ t2) = messages_of t1 ++ messages_of t2.
Proof. apply flat_map_app. Qed.

Lemma messages_of_bind {A B : Type} (P : Message -> Prop) (m : Exec A)
    (f : A -> Exec B) :
  Forall P (messages_of (fst m)) ->
  (forall a, snd m = Some a -> Forall P (messages_of (fst (f a)))) ->
  Forall P (messages_of (fst (bind m f))).
Proof.
  intros Hm Hf. rewrite fst_bind, messages_of_app. apply Forall_app.
  split; [exact Hm|]. destruct (snd m); [now apply Hf|constructor].
Qed.

Lemma trigger_messages (P : Message -> Prop) io handler msg severity :
  P msg -> Forall P (messages_of (fst (trigger io handler msg severity))).
Proof.
  intros HP. unfold trigger.
  destruct handler as [pin duration|username password destination].
  - unfold BuzzerAlarmHandler_trigger.
    destruct (logging.ERROR <=? severity), (wpi_raises io); cbn;
      repeat constructor; exact HP.
  - unfold EMailAlarmHandler_trigger.
    destruct (smtp_raises io); cbn; repeat constructor; exact HP.
Qed.

Lemma for_handlers_messages {S : Type} (P : Message -> Prop)
    (body : S -> AlarmHandler -> Exec S) s handlers :
  (forall s' handler, Forall P (messages_of (fst (body s' handler)))) ->
  Forall P (messages_of (fst (for_handlers body s handlers))).
Proof.
  intros Hbody. revert s.
  induction handlers as [|h rest IH]; intros s; [constructor|].
  cbn [for_handlers]. apply messages_of_bind; [apply Hbody|].
  intros s' _. apply IH.
Qed.

Lemma ADC_SCALE_TO_V_value : ADC_SCALE_TO_V = (1.8 / 1023)%float.
Proof. reflexivity. Qed.

Lemma reading_value env :
  reading env = (float_of_int (adcVal env) * (1.8 / 1023))%float.
Proof. unfold reading. now rewrite ADC_SCALE_TO_V_value. Qed.

Lemma status_before_carries cfg env st :
  carries_reading env (status_before cfg env st).
Proof. split; [reflexivity|apply reading_value]. Qed.

Lemma status_alarm_carries cfg env st :
  carries_reading env (status_alarm cfg env st).
Proof. split; [reflexivity|apply reading_value]. Qed.

Lemma status_after_carries cfg env st :
  carries_reading env (status_after cfg env st).
Proof.
  unfold status_after.
  destruct (alarm_edge cfg env st), (alarmHandlers cfg);
    auto using status_before_carries, status_alarm_carries.
Qed.

Lemma alarm_branch_messages cfg env st :
  Forall (carries_reading env)
    (messages_of
       (fst (alarm_branch cfg (faults env) (adcVal env) (reading env)
               (alarmState st) (numberOfAlarmsLeftToTrigger st)
               (readPeriodState cfg) (status_before cfg env st)))).
Proof.
  unfold alarm_branch.
  destruct (AlarmState_eqb (alarmState st) OK),
    (reading env <? alarmMinVoltage cfg)%float; try constructor.
  - apply messages_of_bind; [constructor|]. intros _ _.
    destruct (numberOfAlarmsLeftToTrigger st - 1 <? 1); [|constructor].
    apply messages_of_bind; [|constructor].
    apply for_handlers_messages. intros _ handler.
    apply messages_of_bind; [|constructor].
    apply trigger_messages, status_alarm_carries.
  - apply messages_of_bind; [constructor|]. intros _ _.
    destruct (alarmNTriggers cfg <=? numberOfAlarmsLeftToTrigger st + 1);
      constructor.
Qed.

Lemma info_branch_messages cfg env msg deadline :
  carries_reading env msg ->
  Forall (carries_reading env)
    (messages_of (fst (info_branch cfg env msg deadline))).
Proof.
  intros Hmsg. unfold info_branch.
  destruct (Qgt_bool (now_check env) deadline); [|constructor].
  apply messages_of_bind.
  - apply for_handlers_messages. intros _ handler.
    now apply trigger_messages.
  - intros _ _. constructor.
Qed.

Lemma cycle_messages cfg env st :
  Forall (carries_reading env) (messages_of (fst (cycle cfg env st))).
Proof.
  unfold cycle. fold (reading env). fold (status_before cfg env st).
  apply messages_of_bind; [constructor|]. intros _ _.
  apply messages_of_bind; [constructor|]. intros _ _.
  apply messages_of_bind.
  { cbn [emit fst messages_of flat_map message_of app].
    constructor; [apply status_before_carries|constructor]. }
  intros _ _. apply messages_of_bind; [apply alarm_branch_messages|].
  intros [[[s n] p] msg] Ha.
  destruct (alarm_branch_outcome cfg env st) as [Hs _]. cbn zeta in Hs.
  rewrite Hs in Ha. destruct (alarm_raises cfg env st); [discriminate|].
  injection Ha as _ _ _ <-.
  apply messages_of_bind; [|constructor].
  apply info_branch_messages, status_after_carries.
Qed.

Lemma binary_round_sign p e :
  binary_round prec emax true p e = SFopp (binary_round prec emax false p e).
Proof.
  unfold binary_round. destruct (shl_align _ _ _) as [mz ez].
  unfold binary_round_aux. destruct (shr_fexp _ _ _ _ _) as [mrs' e'].
  destruct (shr_fexp _ _ _ _ _) as [mrs'' e''].
  destruct (shr_m mrs''); try reflexivity.
  destruct (_ <=? _); reflexivity.
Qed.

Lemma to_Z_of_Z z : 0 <= z < 2 ^ 63 -> Uint63.to_Z (Uint63.of_Z z) = z.
Proof.
  intros H. rewrite Uint63.of_Z_spec. apply Z.mod_small.
  change Uint63.wB with (2 ^ 63). exact H.
Qed.

(** On every 64-bit integer, every C [int] among them, [float_of_int] is
    the conversion of the processor. *)
Lemma float_of_int_is_hardware z :
  - 2 ^ 63 < z < 2 ^ 63 -> float_of_int z = double_of_int z.
Proof.
  intros Hz. unfold float_of_int, double_of_int.
  destruct (Z.ltb_spec z 0) as [Hneg|Hpos].
  - rewrite <- (SF2Prim_Prim2SF (- _)), opp_spec, of_uint63_spec,
      to_Z_of_Z by lia.
    destruct z as [|p|p]; try lia. cbn [Z.opp binary_normalize].
    now rewrite binary_round_sign.
  - rewrite <- (SF2Prim_Prim2SF (of_uint63 _)), of_uint63_spec, to_Z_of_Z
      by lia.
    reflexivity.
Qed.

Lemma carries_reading_reports env msg :
  - 2 ^ 63 < adcVal env < 2 ^ 63 ->
  carries_reading env msg ->
  reports (adcVal env) (double_of_int (adcVal env) * (1.8 / 1023))%float msg.
Proof.
  intros Hz. destruct msg as [|s a raw v n]; [exact (fun H => H)|].
  intros [-> ->]. now rewrite float_of_int_is_hardware.
Qed.

(** The status message of line 132 is logged in every cycle. *)
Lemma cycle_logs_status cfg env st :
  In (Log logging.DEBUG (LogMessage (status_before cfg env st)))
     (fst (cycle cfg env st)).
Proof.
  unfold cycle. fold (reading env). fold (status_before cfg env st).
  rewrite !fst_bind. cbn [emit fst snd app]. right. right. left. reflexivity.
Qed.

(** C9. For every raw sample in the range of a 64-bit integer, let [volts]
    be the product, in double arithmetic, of the sample converted to a
    double and of the double quotient [1.8 / 1023]. Then [volts] is the
    reading of the cycle; the cycle logs a status message that reports the
    sample and [volts], and every status message it logs, hands to a handler
    or mails reports them; and, when the tone generator does not fail, the
    cycle returns with the counter that the comparison of [volts] with the
    threshold selects. *)
Theorem C9_reading_is_sample_times_scale cfg env st :
  - 2 ^ 63 < adcVal env < 2 ^ 63 ->
  let volts := (double_of_int (adcVal env) * (1.8 / 1023))%float in
  reading env = volts
  /\ In (Log logging.DEBUG
           (LogMessage
              (StatusMsg (alarmState st) (adcNumber cfg) (adcVal env) volts
                         (numberOfAlarmsLeftToTrigger st))))
        (fst (cycle cfg env st))
  /\ Forall (reports (adcVal env) volts)
            (messages_of (fst (cycle cfg env st)))
  /\ (wpi_raises (faults env) = false ->
      exists tr st',
        cycle cfg env st = (tr, Some st')
        /\ numberOfAlarmsLeftToTrigger st'
           = if AlarmState_eqb (alarmState st) OK
             then if (volts <? alarmMinVoltage cfg)%float
                  then numberOfAlarmsLeftToTrigger st - 1
                  else alarmNTriggers cfg
             else if (volts <? alarmMinVoltage cfg)%float
                  then 0
                  else numberOfAlarmsLeftToTrigger st + 1).
Proof.
  intros Hz. cbn zeta.
  assert (Hr : reading env
               = (double_of_int (adcVal env) * (1.8 / 1023))%float)
    by (rewrite reading_value; now rewrite float_of_int_is_hardware).
  split; [exact Hr|]. split; [|split].
  - rewrite <- Hr. apply cycle_logs_status.
  - eapply Forall_impl; [|apply cycle_messages].
    intros msg. now apply carries_reading_reports.
  - intros Hw. destruct (cycle_total cfg env st (or_introl Hw)) as [tr Htr].
    exists tr, (next_state cfg env st). split; [exact Htr|].
    unfold next_state; cbn [numberOfAlarmsLeftToTrigger]. unfold below.
    now rewrite Hr.
Qed.

(** With the default threshold of 0.7 V and [N = 3]: the sample 397 reads
    0.6985337243401759 V, is reported so, and counts as a low reading; the
    sample 398 reads 0.7002932551319648 V and does not. *)
Lemma C9_witness :
  let cfg := sample_config 3 in
  let st := initial_state cfg 0 in
  reading cycle_397 = 0.6985337243401759%float
  /\ In (Log logging.DEBUG
           (LogMessage (StatusMsg OK 1 397 0.6985337243401759%float 3)))
        (fst (cycle cfg cycle_397 st))
  /\ (exists tr st',
        cycle cfg cycle_397 st = (tr, Some st')
        /\ numberOfAlarmsLeftToTrigger st' = 2)
  /\ reading cycle_398 = 0.7002932551319648%float
  /\ (exists tr st',
        cycle cfg cycle_398 st = (tr, Some st')
        /\ numberOfAlarmsLeftToTrigger st' = 3).
Proof.
  cbn zeta.
  pose (H397 := C9_reading_is_sample_times_scale (sample_config 3) cycle_397
                  (initial_state (sample_config 3) 0)
                  ltac:(cbn; lia)).
  pose (H398 := C9_reading_is_sample_times_scale (sample_config 3) cycle_398
                  (initial_state (sample_config 3) 0)
                  ltac:(cbn; lia)).
  cbn zeta in H397, H398.
  split; [exact (proj1 H397)|].
  split; [exact (proj1 (proj2 H397))|].
  split; [exact (proj2 (proj2 (proj2 H397)) eq_refl)|].
  split; [exact (proj1 H398)|].
  exact (proj2 (proj2 (proj2 H398)) eq_refl).
Defined.

(** ** Failing handlers *)

(** A failure of the mail relay is caught and logged inside the mail
    handler, whatever the severity. *)
Lemma mail_failure_is_contained io username password destination msg
    severity :
  snd (trigger io (EMailAlarmHandler username password destination) msg
         severity) = Some tt
  /\ (smtp_raises io = true ->
      In (Log logging.CRITICAL LogMailFailed)
         (fst (trigger io (EMailAlarmHandler username password destination)
                 msg severity))).
Proof.
  split; [now rewrite snd_trigger|].
  intros Hs. unfold trigger, EMailAlarmHandler_trigger. rewrite Hs. cbn. tauto.
Qed.

Lemma existsb_trigger_raises io handlers pin duration :
  In (BuzzerAlarmHandler pin duration) handlers ->
  wpi_raises io = true ->
  existsb (trigger_raises io logging.CRITICAL) handlers = true.
Proof.
  intros Hin Hw. apply existsb_exists.
  exists (BuzzerAlarmHandler pin duration). split; [exact Hin|].
  unfold trigger_raises. now rewrite Hw.
Qed.

(** C6, where the code departs from it. When the buzzer handler is
    registered and the tone generator fails in the cycle that raises the
    alarm, the exception leaves [BuzzerAlarmHandler.trigger], the cycle and
    the loop: the run has no result, whatever cycles were to follow. *)
Theorem C6_buzzer_failure_escapes cfg env st pin duration rest :
  In (BuzzerAlarmHandler pin duration) (alarmHandlers cfg) ->
  alarm_edge cfg env st = true ->
  wpi_raises (faults env) = true ->
  snd (trigger (faults env) (BuzzerAlarmHandler pin duration)
         (status_alarm cfg env st) logging.CRITICAL) = None
  /\ snd (cycle cfg env st) = None
  /\ snd (monitor_loop cfg (env :: rest) st) = None.
Proof.
  intros Hin He Hw.
  assert (Hr : alarm_raises cfg env st = true).
  { unfold alarm_raises.
    now rewrite He, (existsb_trigger_raises _ _ _ _ Hin Hw). }
  split; [|split].
  - rewrite snd_trigger. unfold trigger_raises. now rewrite Hw.
  - now rewrite cycle_outcome, Hr.
  - rewrite monitor_loop_outcome. cbn [loop_raises]. now rewrite Hr.
Qed.

(** The configuration of the start-up code with [--alarm_tri 1]: a low
    reading while the tone generator fails ends the run, although a good
    reading was to follow. *)
Lemma C6_witness :
  snd (monitor_loop (sample_config 1)
         [sample_cycle 284 2 buzzer_broken; good_cycle]
         (initial_state (sample_config 1) 0)) = None.
Proof.
  refine (proj2 (proj2
    (C6_buzzer_failure_escapes (sample_config 1)
       (sample_cycle 284 2 buzzer_broken)
       (initial_state (sample_config 1) 0) 27 30 [good_cycle] _ _ _))).
  - cbn. tauto.
  - reflexivity.
  - reflexivity.
Defined.

(** ** The information alarm *)

Lemma Qgt_bool_lt a b : Qgt_bool a b = true <-> (b < a)%Q.
Proof.
  unfold Qgt_bool. rewrite negb_true_iff, <- not_true_iff_false,
    Qle_bool_iff.
  split; [apply Qnot_le_lt|apply Qlt_not_le].
Qed.

Lemma Qgt_bool_le a b : Qgt_bool a b = false <-> (a <= b)%Q.
Proof.
  unfold Qgt_bool. rewrite negb_false_iff. apply Qle_bool_iff.
Qed.

(** C8, as amended. [monitor] starts by handing the configuration message
    to every handler with severity [INFO] and by setting the deadline to
    the clock plus [infoPeriod]. In a cycle that returns, whatever the alarm
    state: if the clock is past the deadline, every handler is called with
    severity [INFO] and the status message of the cycle, after the alarm
    dispatch if there is one, and the deadline becomes the clock plus
    [infoPeriod], which is later than the old deadline when [infoPeriod] is
    positive and the clock has not gone backwards; otherwise no handler is
    called with [INFO] and the deadline stays. So the information alarm is
    dispatched in the first cycle after the deadline, and not again before a
    full [infoPeriod] has passed. *)
Theorem C8_information_alarm cfg io now :
  (exists tr0,
     monitor_setup cfg io now = (tr0, Some (initial_state cfg now))
     /\ triggers tr0
        = fan_out (alarmHandlers cfg)
            (ConfigMsg (adcNumber cfg) (readPeriodState cfg)
                       (alarmMinVoltage cfg) (alarmNTriggers cfg))
            logging.INFO
     /\ nextInfoTrigger (initial_state cfg now)
        = (now + inject_Z (infoPeriod cfg))%Q)
  /\ forall env st tr st',
       cycle cfg env st = (tr, Some st') ->
       ((nextInfoTrigger st < now_check env)%Q ->
        triggers tr
        = (if alarm_edge cfg env st
           then fan_out (alarmHandlers cfg) (status_alarm cfg env st)
                        logging.CRITICAL
           else [])
          ++ fan_out (alarmHandlers cfg) (status_after cfg env st)
                     logging.INFO
        /\ nextInfoTrigger st'
           = (now_rearm env + inject_Z (infoPeriod cfg))%Q
        /\ (0 < infoPeriod cfg -> (now_check env <= now_rearm env)%Q ->
            (nextInfoTrigger st < nextInfoTrigger st')%Q)
        /\ forall env2 tr2 st2,
             cycle cfg env2 st' = (tr2, Some st2) ->
             (now_check env2
              <= now_rearm env + inject_Z (infoPeriod cfg))%Q ->
             triggers tr2
             = if alarm_edge cfg env2 st'
               then fan_out (alarmHandlers cfg) (status_alarm cfg env2 st')
                            logging.CRITICAL
               else [])
       /\ ((now_check env <= nextInfoTrigger st)%Q ->
           triggers tr
           = (if alarm_edge cfg env st
              then fan_out (alarmHandlers cfg) (status_alarm cfg env st)
                           logging.CRITICAL
              else [])
           /\ nextInfoTrigger st' = nextInfoTrigger st).
Proof.
  split.
  - destruct (monitor_setup_outcome cfg io now) as [Hs Ht].
    destruct (returns_intro _ _ Hs) as [tr0 Htr0].
    exists tr0. rewrite Htr0 in Ht. now repeat split.
  - assert (Hquiet : forall env st tr st',
              cycle cfg env st = (tr, Some st') ->
              (now_check env <= nextInfoTrigger st)%Q ->
              triggers tr
              = (if alarm_edge cfg env st
                 then fan_out (alarmHandlers cfg) (status_alarm cfg env st)
                              logging.CRITICAL
                 else [])
              /\ nextInfoTrigger st' = nextInfoTrigger st).
    { intros env st tr st' Hcy Hle.
      pose proof (cycle_returns _ _ _ _ _ Hcy) as Hst'.
      assert (Hr : alarm_raises cfg env st = false).
      { apply returns_elim in Hcy. rewrite cycle_outcome in Hcy.
        now destruct (alarm_raises cfg env st). }
      assert (Htr : tr = fst (cycle cfg env st)) by now rewrite Hcy.
      apply Qgt_bool_le in Hle. fold (info_due env st) in Hle.
      split.
      - rewrite Htr, (cycle_triggers cfg env st Hr), Hle. apply app_nil_r.
      - rewrite Hst'. unfold next_state; cbn [nextInfoTrigger].
        now rewrite Hle. }
    intros env st tr st' Hcy. split; [|now apply Hquiet].
    intros Hlt.
    pose proof (cycle_returns _ _ _ _ _ Hcy) as Hst'.
    assert (Hr : alarm_raises cfg env st = false).
    { apply returns_elim in Hcy. rewrite cycle_outcome in Hcy.
      now destruct (alarm_raises cfg env st). }
    assert (Htr : tr = fst (cycle cfg env st)) by now rewrite Hcy.
    pose proof (proj2 (Qgt_bool_lt _ _) Hlt) as Hdue.
    fold (info_due env st) in Hdue.
    assert (Hnext : nextInfoTrigger st'
                    = (now_rearm env + inject_Z (infoPeriod cfg))%Q).
    { rewrite Hst'. unfold next_state; cbn [nextInfoTrigger].
      now rewrite Hdue. }
    split; [|split; [|split]].
    + now rewrite Htr, (cycle_triggers cfg env st Hr), Hdue.
    + exact Hnext.
    + intros HP Hmono. rewrite Hnext.
      assert (0 < inject_Z (infoPeriod cfg))%Q
        by (change 0%Q with (inject_Z 0); now rewrite <- Zlt_Qlt).
      lra.
    + intros env2 tr2 st2 Hcy2 Hle.
      apply (Hquiet env2 st' tr2 st2 Hcy2). now rewrite Hnext.
Qed.

(** With [--info_period 10] and a cycle every two seconds, the deadline set
    at clock time 0 is 10, the first dispatch happens at 12 and moves the
    deadline to 22, and the second happens at 24. *)
Lemma steady_run_info_times :
  info_times (main (sample_args 1 10)) steady_run
    (initial_state (main (sample_args 1 10)) 0)
  = [inject_Z 12; inject_Z 24].
Proof. reflexivity. Qed.

(** With [--info_period 10] and a cycle every two seconds from clock time
    0, the information alarm is dispatched at 12 and at 24 only: the ten
    seconds from 13 to 23 hold five cycles and no dispatch. *)
Lemma C8_counterexample :
  ~ fires_once_per_interval (main (sample_args 1 10)) 0 steady_run.
Proof.
  intros H.
  destruct (H 13%Q) as (t & Hin & Hge & Hle).
  - discriminate.
  - exists (sample_cycle 455 24 all_working). split.
    + unfold steady_run. cbn. tauto.
    + discriminate.
  - vm_compute in Hin. destruct Hin as [<-|[<-|[]]].
    + now apply Hge.
    + now apply Hle.
Qed.


(** * Further properties of [monitor] *)

(** ** The states of the machine *)

Lemma next_state_OK_or_ALARM cfg env st :
  alarmState st = OK \/ alarmState st = ALARM ->
  alarmState (next_state cfg env st) = OK
  \/ alarmState (next_state cfg env st) = ALARM.
Proof.
  intros [Hs|Hs]; unfold next_state; cbn [alarmState]; rewrite Hs;
    cbn [AlarmState_eqb].
  - destruct (below cfg env && _); auto.
  - destruct (negb (below cfg env) && _); auto.
Qed.

Lemma run_state_OK_or_ALARM cfg envs st :
  alarmState st = OK \/ alarmState st = ALARM ->
  alarmState (run_state cfg envs st) = OK
  \/ alarmState (run_state cfg envs st) = ALARM.
Proof.
  revert st. induction envs as [|env rest IH]; intros st Hs; [exact Hs|].
  rewrite run_state_cons. now apply IH, next_state_OK_or_ALARM.
Qed.

(** X1. Whatever the trigger count, positive or not, and whatever the
    readings, [monitor] is only ever in [OK] or in [ALARM]: the member
    [ALARMING_VOLTAGE] of the enumeration is never assumed. *)
Theorem monitor_never_ALARMING_VOLTAGE cfg io now envs tr st :
  monitor cfg io now envs = (tr, Some st) ->
  alarmState st = OK \/ alarmState st = ALARM.
Proof.
  intros Hrun. rewrite (monitor_returns _ _ _ _ _ _ Hrun).
  apply run_state_OK_or_ALARM. now left.
Qed.

Lemma monitor_never_ALARMING_VOLTAGE_witness :
  alarmState (run_state (sample_config 0) [low_cycle; good_cycle; low_cycle]
                (initial_state (sample_config 0) 0)) = OK
  \/ alarmState (run_state (sample_config 0)
                   [low_cycle; good_cycle; low_cycle]
                   (initial_state (sample_config 0) 0)) = ALARM.
Proof.
  refine (monitor_never_ALARMING_VOLTAGE (sample_config 0) all_working 0
            [low_cycle; good_cycle; low_cycle]
            (fst (monitor (sample_config 0) all_working 0
                    [low_cycle; good_cycle; low_cycle]))
            (run_state (sample_config 0) [low_cycle; good_cycle; low_cycle]
               (initial_state (sample_config 0) 0)) _).
  reflexivity.
Defined.

(** ** Trigger counts of at most one *)

Lemma next_state_single_sample cfg env st :
  alarmNTriggers cfg <= 1 ->
  single_sample_inv cfg st ->
  single_sample_inv cfg (next_state cfg env st)
  /\ alarmState (next_state cfg env st)
     = (if below cfg env then ALARM else OK)
  /\ alarm_edge cfg env st
     = AlarmState_eqb (alarmState st) OK && below cfg env.
Proof.
  intros HN [[Hs Hc]|[Hs Hc]]; unfold single_sample_inv, next_state,
    alarm_edge; cbn [alarmState numberOfAlarmsLeftToTrigger]; rewrite Hs;
    cbn [AlarmState_eqb]; destruct (below cfg env); cbn [andb negb].
  - replace (numberOfAlarmsLeftToTrigger st - 1 <? 1) with true
      by (symmetry; apply Z.ltb_lt; lia).
    repeat split. right. split; [reflexivity|lia].
  - repeat split. left. split; [reflexivity|lia].
  - repeat split. right. split; [reflexivity|lia].
  - replace (alarmNTriggers cfg <=? numberOfAlarmsLeftToTrigger st + 1)
      with true by (symmetry; apply Z.leb_le; lia).
    repeat split. left. split; [reflexivity|lia].
Qed.

Lemma run_state_single_sample cfg envs st :
  alarmNTriggers cfg <= 1 ->
  single_sample_inv cfg st -> single_sample_inv cfg (run_state cfg envs st).
Proof.
  intros HN. revert st.
  induction envs as [|env rest IH]; intros st Hinv; [exact Hinv|].
  rewrite run_state_cons. now apply IH, next_state_single_sample.
Qed.

Lemma initial_state_single_sample cfg now :
  alarmNTriggers cfg <= 1 -> single_sample_inv cfg (initial_state cfg now).
Proof. intros HN. left. cbn. split; [reflexivity|lia]. Qed.

Lemma run_state_app cfg envs1 envs2 st :
  run_state cfg (envs1 ++ envs2) st
  = run_state cfg envs2 (run_state cfg envs1 st).
Proof. apply fold_left_app. Qed.

(** X2. With a trigger count of at most [1], which includes the zero and
    negative counts that the start-up code passes on, there is no
    debouncing in either direction: after every cycle of [monitor] the
    state is [ALARM] if the reading of that cycle was below the threshold
    and [OK] if it was not. *)
Theorem single_sample_mode cfg io now envs env tr st :
  alarmNTriggers cfg <= 1 ->
  monitor cfg io now (envs ++ [env]) = (tr, Some st) ->
  alarmState st = if below cfg env then ALARM else OK.
Proof.
  intros HN Hrun. rewrite (monitor_returns _ _ _ _ _ _ Hrun), run_state_app.
  cbn [run_state fold_left].
  apply next_state_single_sample; [exact HN|].
  apply run_state_single_sample, initial_state_single_sample; exact HN.
Qed.

Lemma single_sample_mode_witness :
  alarmState (run_state (sample_config (-2)) [low_cycle; good_cycle]
                (initial_state (sample_config (-2)) 0)) = OK.
Proof.
  refine (single_sample_mode (sample_config (-2)) all_working 0 [low_cycle]
            good_cycle
            (fst (monitor (sample_config (-2)) all_working 0
                    [low_cycle; good_cycle]))
            (run_state (sample_config (-2)) [low_cycle; good_cycle]
               (initial_state (sample_config (-2)) 0)) _ _).
  - cbn. lia.
  - reflexivity.
Defined.

(** ** The trigger count the start-up code passes on *)

Lemma calls_app t1 t2 : calls (t1 ++ t2) = calls t1 ++ calls t2.
Proof. apply flat_map_app. Qed.

Lemma calls_triggers tr : calls (triggers tr) = calls tr.
Proof.
  induction tr as [|e tr IH]; [reflexivity|].
  destruct e; cbn [triggers filter is_trigger]; fold (triggers tr);
    try exact IH.
  change (calls (Trigger handler msg severity :: ?l))
    with ((handler, severity) :: calls l).
  now rewrite IH.
Qed.

Lemma calls_fan_out handlers msg severity :
  calls (fan_out handlers msg severity)
  = map (fun handler => (handler, severity)) handlers.
Proof.
  induction handlers as [|h rest IH]; [reflexivity|].
  cbn [fan_out map]. fold (fan_out rest msg severity).
  change (calls (Trigger h msg severity :: ?l)) with ((h, severity) :: calls l).
  now rewrite IH.
Qed.

Lemma cycle_calls cfg env st :
  alarm_raises cfg env st = false ->
  calls (fst (cycle cfg env st))
  = (if alarm_edge cfg env st
     then map (fun handler => (handler, logging.CRITICAL))
              (alarmHandlers cfg)
     else [])
    ++ (if info_due env st
        then map (fun handler => (handler, logging.INFO)) (alarmHandlers cfg)
        else []).
Proof.
  intros Hr. rewrite <- calls_triggers, (cycle_triggers cfg env st Hr),
    calls_app.
  destruct (alarm_edge cfg env st), (info_due env st);
    now rewrite ?calls_fan_out.
Qed.

Lemma monitor_loop_fst_cons cfg env rest st :
  fst (monitor_loop cfg (env :: rest) st)
  = fst (cycle cfg env st)
    ++ (if alarm_raises cfg env st then []
        else fst (monitor_loop cfg rest (next_state cfg env st))).
Proof.
  cbn [monitor_loop]. rewrite fst_bind, cycle_outcome.
  now destruct (alarm_raises cfg env st).
Qed.

Lemma below_same_threshold cfg cfg' env :
  alarmMinVoltage cfg = alarmMinVoltage cfg' -> below cfg env = below cfg' env.
Proof. unfold below. now intros ->. Qed.

(** Two configurations with trigger counts of at most [1] that agree on
    everything else take the same course, cycle by cycle. *)
Lemma single_sample_cycles_agree cfg cfg' envs st st' :
  same_but_count cfg cfg' ->
  alarmNTriggers cfg <= 1 -> alarmNTriggers cfg' <= 1 ->
  single_sample_inv cfg st -> single_sample_inv cfg' st' ->
  same_course st st' ->
  loop_raises cfg envs st = loop_raises cfg' envs st'
  /\ (loop_raises cfg envs st = false ->
      same_course (run_state cfg envs st) (run_state cfg' envs st')
      /\ calls (fst (monitor_loop cfg envs st))
         = calls (fst (monitor_loop cfg' envs st'))).
Proof.
  intros (Hadc & Hper & Hthr & Hhan & Hinfo) HN HN'.
  revert st st'. induction envs as [|env rest IH];
    intros st st' Hinv Hinv' (Hs & Hp & Hd).
  - split; [reflexivity|]. intros _. now split.
  - destruct (next_state_single_sample cfg env st HN Hinv)
      as (Hi1 & Hs1 & He1).
    destruct (next_state_single_sample cfg' env st' HN' Hinv')
      as (Hi1' & Hs1' & He1').
    pose proof (below_same_threshold cfg cfg' env Hthr) as Hb.
    assert (Hedge : alarm_edge cfg env st = alarm_edge cfg' env st')
      by (rewrite He1, He1', Hs, Hb; reflexivity).
    assert (Hraise : alarm_raises cfg env st = alarm_raises cfg' env st')
      by (unfold alarm_raises; now rewrite Hedge, Hhan).
    assert (Hdue : info_due env st = info_due env st')
      by (unfold info_due; now rewrite Hd).
    assert (Hnext : same_course (next_state cfg env st)
                      (next_state cfg' env st')).
    { split; [now rewrite Hs1, Hs1', Hb|].
      unfold next_state; cbn [readPeriod nextInfoTrigger].
      now rewrite Hs, Hb, Hper, Hdue, Hd, Hinfo. }
    destruct (IH _ _ Hi1 Hi1' Hnext) as [IHr IHc].
    cbn [loop_raises]. rewrite !run_state_cons, !monitor_loop_fst_cons.
    rewrite <- Hraise, <- IHr. split; [reflexivity|].
    destruct (alarm_raises cfg env st) eqn:Hr; [discriminate|].
    cbn [orb]. intros Hrest. destruct (IHc Hrest) as [Hcourse Hcalls].
    split; [exact Hcourse|].
    rewrite !calls_app, Hcalls, (cycle_calls cfg env st Hr),
      (cycle_calls cfg' env st') by now rewrite <- Hraise.
    now rewrite Hedge, Hdue, Hhan.
Qed.

Lemma monitor_setup_calls cfg io now :
  calls (fst (monitor_setup cfg io now))
  = map (fun handler => (handler, logging.INFO)) (alarmHandlers cfg).
Proof.
  destruct (monitor_setup_outcome cfg io now) as [_ Ht].
  now rewrite <- calls_triggers, Ht, calls_fan_out.
Qed.

Lemma monitor_fst cfg io now envs :
  fst (monitor cfg io now envs)
  = fst (monitor_setup cfg io now)
    ++ fst (monitor_loop cfg envs (initial_state cfg now)).
Proof.
  unfold monitor. destruct (monitor_setup_outcome cfg io now) as [Hs _].
  now rewrite fst_bind, Hs.
Qed.

Lemma main_clamped_same_but_count args :
  same_but_count (main args) (main_clamped args).
Proof. now repeat split. Qed.

Lemma main_clamped_above_one args :
  1 < alarm_tri args -> main_clamped args = main args.
Proof.
  intros H. unfold main_clamped, main_alarmNTriggers. cbn zeta.
  apply Z.ltb_lt in H. now rewrite H.
Qed.

(** X3. Passing [args.alarm_tri] to [monitor] instead of the local
    [alarmNTriggers] changes nothing but the counter values: for every
    command line and all inputs, the run with the count that is passed ends
    with an escaping exception exactly when the run with the clamped count
    does, and otherwise both leave the same alarm state, read period and
    deadline and have called the same handlers with the same severities in
    the same order. *)
Theorem main_count_behaves_as_clamped args io now envs :
  (snd (monitor (main args) io now envs) = None
   <-> snd (monitor (main_clamped args) io now envs) = None)
  /\ forall tr st,
       monitor (main args) io now envs = (tr, Some st) ->
       exists tr' st',
         monitor (main_clamped args) io now envs = (tr', Some st')
         /\ same_course st st'
         /\ calls tr = calls tr'.
Proof.
  destruct (Z.ltb_spec 1 (alarm_tri args)) as [Hgt|Hle].
  - rewrite (main_clamped_above_one args Hgt). split; [reflexivity|].
    intros tr st Hrun. exists tr, st. now repeat split.
  - assert (HN : alarmNTriggers (main args) <= 1) by exact Hle.
    assert (HN' : alarmNTriggers (main_clamped args) <= 1).
    { cbn [main_clamped alarmNTriggers]. unfold main_alarmNTriggers.
      cbn zeta. apply Z.ltb_ge in Hle. rewrite Hle. lia. }
    destruct (single_sample_cycles_agree (main args) (main_clamped args)
                envs (initial_state (main args) now)
                (initial_state (main_clamped args) now)
                (main_clamped_same_but_count args) HN HN'
                (initial_state_single_sample _ now HN)
                (initial_state_single_sample _ now HN'))
      as [Hr Hc]; [now repeat split|].
    rewrite !monitor_outcome, <- Hr. split.
    + now destruct (loop_raises (main args) envs _).
    + intros tr st Hrun.
      pose proof (monitor_returns _ _ _ _ _ _ Hrun) as Hst.
      assert (Hno : loop_raises (main args) envs
                      (initial_state (main args) now) = false).
      { apply returns_elim in Hrun. rewrite monitor_outcome in Hrun.
        now destruct (loop_raises (main args) envs _). }
      destruct (Hc Hno) as [Hcourse Hcalls].
      pose proof (monitor_outcome (main_clamped args) io now envs) as Ho.
      rewrite <- Hr, Hno in Ho.
      destruct (returns_intro _ _ Ho) as [tr' Htr'].
      exists tr', (run_state (main_clamped args) envs
                     (initial_state (main_clamped args) now)).
      split; [exact Htr'|]. split; [now rewrite Hst|].
      assert (Htr : tr = fst (monitor (main args) io now envs))
        by now rewrite Hrun.
      assert (Htr2 : tr' = fst (monitor (main_clamped args) io now envs))
        by now rewrite Htr'.
      rewrite Htr, Htr2, !monitor_fst, !calls_app, !monitor_setup_calls,
        Hcalls.
      reflexivity.
Qed.

(** ** How long a state lasts *)

Lemma stays_OK cfg envs st :
  alarmState st = OK ->
  Z.of_nat (List.length envs) < numberOfAlarmsLeftToTrigger st ->
  Z.of_nat (List.length envs) < alarmNTriggers cfg ->
  loop_raises cfg envs st = false
  /\ alarmState (run_state cfg envs st) = OK.
Proof.
  revert st. induction envs as [|env rest IH]; intros st Hok Hc HN;
    [now split|].
  cbn [List.length] in Hc, HN. rewrite Nat2Z.inj_succ in Hc, HN.
  assert (Hn : (numberOfAlarmsLeftToTrigger st - 1 <? 1) = false)
    by (apply Z.ltb_ge; lia).
  assert (Hedge : alarm_edge cfg env st = false).
  { unfold alarm_edge. now rewrite Hn, andb_false_r. }
  rewrite run_state_cons. cbn [loop_raises].
  rewrite (alarm_raises_no_edge _ _ _ Hedge). cbn [orb].
  apply IH; [| |lia]; unfold next_state;
    cbn [alarmState numberOfAlarmsLeftToTrigger];
    rewrite Hok; cbn [AlarmState_eqb]; rewrite ?Hn, ?andb_false_r;
    [reflexivity|].
  destruct (below cfg env); lia.
Qed.

Lemma stays_ALARM cfg envs st :
  alarmState st = ALARM ->
  numberOfAlarmsLeftToTrigger st + Z.of_nat (List.length envs)
  < alarmNTriggers cfg ->
  Z.of_nat (List.length envs) <= alarmNTriggers cfg ->
  loop_raises cfg envs st = false
  /\ alarmState (run_state cfg envs st) = ALARM.
Proof.
  revert st. induction envs as [|env rest IH]; intros st Hal Hc HN;
    [now split|].
  cbn [List.length] in Hc, HN. rewrite Nat2Z.inj_succ in Hc, HN.
  assert (Hn : (alarmNTriggers cfg <=? numberOfAlarmsLeftToTrigger st + 1)
               = false) by (apply Z.leb_gt; lia).
  assert (Hne : alarmState st <> OK) by (rewrite Hal; discriminate).
  rewrite run_state_cons. cbn [loop_raises].
  rewrite (alarm_raises_no_edge _ _ _ (alarm_edge_outside_OK _ _ _ Hne)).
  cbn [orb].
  apply IH; [| |lia]; unfold next_state;
    cbn [alarmState numberOfAlarmsLeftToTrigger];
    rewrite Hal; cbn [AlarmState_eqb]; rewrite ?Hn, ?andb_false_r;
    [reflexivity|].
  destruct (below cfg env); lia.
Qed.

(** X4. With a trigger count [N >= 1], a change of state is followed by at
    least [N - 1] cycles without one: after a cycle of [monitor] that
    changed the alarm state, fewer than [N] further cycles, whatever they
    read and whether or not the tone generator works, all return and leave
    that state. *)
Theorem state_lasts_N_cycles cfg io now envs env rest tr st tr1 st1 :
  1 <= alarmNTriggers cfg ->
  monitor cfg io now envs = (tr, Some st) ->
  cycle cfg env st = (tr1, Some st1) ->
  alarmState st1 <> alarmState st ->
  Z.of_nat (List.length rest) < alarmNTriggers cfg ->
  exists tr2 st2,
    monitor_loop cfg rest st1 = (tr2, Some st2)
    /\ alarmState st2 = alarmState st1.
Proof.
  intros HN Hrun Hcy Hchange Hlen.
  pose proof (monitor_in_range cfg io now envs tr st HN Hrun) as Hin.
  pose proof (cycle_returns _ _ _ _ _ Hcy) as Hst1.
  pose proof (next_state_in_range cfg env st HN Hin) as Hin1.
  rewrite <- Hst1 in Hin1.
  assert (Hstay : loop_raises cfg rest st1 = false
                  /\ alarmState (run_state cfg rest st1) = alarmState st1).
  { destruct Hin as [[Hs Hc]|[Hs Hc]], Hin1 as [[Hs1 Hc1]|[Hs1 Hc1]];
      try congruence.
    - rewrite Hs1. apply stays_ALARM; [exact Hs1| |lia].
      assert (numberOfAlarmsLeftToTrigger st1 = 0); [|lia].
      revert Hs1. rewrite Hst1. unfold next_state;
        cbn [alarmState numberOfAlarmsLeftToTrigger]. rewrite Hs.
      cbn [AlarmState_eqb]. destruct (below cfg env); cbn [andb];
        [|discriminate].
      destruct (Z.ltb_spec (numberOfAlarmsLeftToTrigger st - 1) 1);
        [lia|discriminate].
    - rewrite Hs1. apply stays_OK; [exact Hs1| |exact Hlen].
      assert (numberOfAlarmsLeftToTrigger st1 = alarmNTriggers cfg); [|lia].
      revert Hs1. rewrite Hst1. unfold next_state;
        cbn [alarmState numberOfAlarmsLeftToTrigger]. rewrite Hs.
      cbn [AlarmState_eqb]. destruct (below cfg env); cbn [negb andb];
        [discriminate|].
      destruct (Z.leb_spec (alarmNTriggers cfg)
                  (numberOfAlarmsLeftToTrigger st + 1));
        [lia|discriminate]. }
  destruct Hstay as [Hr Hs2].
  pose proof (monitor_loop_outcome cfg rest st1) as Ho. rewrite Hr in Ho.
  destruct (returns_intro _ _ Ho) as [tr2 Htr2].
  now exists tr2, (run_state cfg rest st1).
Qed.

(** With [N = 3]: after the alarm has been raised, two good readings do not
    end it. *)
Lemma state_lasts_N_cycles_witness :
  exists tr2 st2,
    monitor_loop (sample_config 3) [good_cycle; good_cycle]
      (run_state (sample_config 3) [low_cycle; low_cycle; low_cycle]
         (initial_state (sample_config 3) 0)) = (tr2, Some st2)
    /\ alarmState st2 = ALARM.
Proof.
  refine (state_lasts_N_cycles (sample_config 3) all_working 0
            [low_cycle; low_cycle] low_cycle [good_cycle; good_cycle]
            (fst (monitor (sample_config 3) all_working 0
                    [low_cycle; low_cycle]))
            (run_state (sample_config 3) [low_cycle; low_cycle]
               (initial_state (sample_config 3) 0))
            (fst (cycle (sample_config 3) low_cycle
                    (run_state (sample_config 3) [low_cycle; low_cycle]
                       (initial_state (sample_config 3) 0))))
            (run_state (sample_config 3) [low_cycle; low_cycle; low_cycle]
               (initial_state (sample_config 3) 0)) _ _ _ _ _).
  - cbn. lia.
  - reflexivity.
  - reflexivity.
  - discriminate.
  - cbn. lia.
Defined.

(** ** A threshold that is not a number *)

Lemma below_nan cfg env :
  alarmMinVoltage cfg = nan -> below cfg env = false.
Proof.
  intros Hnan. unfold below. rewrite Hnan, ltb_spec.
  change (Prim2SF nan) with S754_nan. unfold SFltb.
  now destruct (Prim2SF (reading env)).
Qed.

Lemma stays_OK_without_low_reading cfg envs st :
  alarmState st = OK ->
  Forall (fun env => below cfg env = false) envs ->
  loop_raises cfg envs st = false
  /\ alarmState (run_state cfg envs st) = OK.
Proof.
  intros Hok Hgood. revert st Hok.
  induction Hgood as [|env rest Hb _ IH]; intros st Hok; [now split|].
  assert (Hedge : alarm_edge cfg env st = false).
  { unfold alarm_edge. now rewrite Hb, andb_false_r. }
  rewrite run_state_cons. cbn [loop_raises].
  rewrite (alarm_raises_no_edge _ _ _ Hedge). cbn [orb].
  apply IH. unfold next_state; cbn [alarmState]. now rewrite Hok, Hb.
Qed.

(** ** Where the events of a cycle come from *)

Lemma trace_bind {A B : Type} (P : Event -> Prop) (m : Exec A)
    (f : A -> Exec B) :
  Forall P (fst m) ->
  (forall a, snd m = Some a -> Forall P (fst (f a))) ->
  Forall P (fst (bind m f)).
Proof.
  intros Hm Hf. rewrite fst_bind. apply Forall_app.
  split; [exact Hm|]. destruct (snd m); [now apply Hf|constructor].
Qed.

Lemma for_handlers_trace {S : Type} (P : Event -> Prop)
    (body : S -> AlarmHandler -> Exec S) s handlers :
  (forall s' handler, In handler handlers -> Forall P (fst (body s' handler))) ->
  Forall P (fst (for_handlers body s handlers)).
Proof.
  revert s. induction handlers as [|h rest IH]; intros s Hbody;
    [constructor|].
  cbn [for_handlers]. apply trace_bind; [apply Hbody; now left|].
  intros s' _. apply IH. intros s'' handler Hin. apply Hbody. now right.
Qed.

Lemma trigger_dispatched cfg io handler msg severity :
  In handler (alarmHandlers cfg) ->
  Forall (dispatched cfg io msg severity)
         (fst (trigger io handler msg severity)).
Proof.
  intros Hin. unfold trigger.
  destruct handler as [pin duration|username password destination].
  - unfold BuzzerAlarmHandler_trigger.
    destruct (Z.leb_spec logging.ERROR severity) as [Hsev|Hsev],
      (wpi_raises io) eqn:Hw; cbn; repeat constructor; cbn; auto.
  - unfold EMailAlarmHandler_trigger.
    destruct (smtp_raises io) eqn:Hsm; cbn; repeat constructor; cbn; eauto.
Qed.

Lemma dispatch_trace {S : Type} cfg io msg severity
    (body : S -> AlarmHandler -> Exec S) s :
  (forall s' handler,
     fst (body s' handler) = fst (trigger io handler msg severity)) ->
  Forall (dispatched cfg io msg severity)
         (fst (for_handlers body s (alarmHandlers cfg))).
Proof.
  intros Hbody. apply for_handlers_trace. intros s' handler Hin.
  rewrite Hbody. now apply trigger_dispatched.
Qed.

Ltac housekeeping_event :=
  cbn [emit fst]; constructor; [right; right; exact I|constructor].

Lemma alarm_branch_events cfg env st :
  Forall (cycle_event cfg env st)
    (fst (alarm_branch cfg (faults env) (adcVal env) (reading env)
            (alarmState st) (numberOfAlarmsLeftToTrigger st)
            (readPeriodState cfg) (status_before cfg env st))).
Proof.
  unfold alarm_branch. fold (below cfg env).
  destruct (AlarmState_eqb (alarmState st) OK) eqn:Hok,
    (below cfg env) eqn:Hb; [| constructor | constructor |].
  - apply trace_bind; [housekeeping_event|].
    intros _ _.
    destruct (numberOfAlarmsLeftToTrigger st - 1 <? 1) eqn:Hn; [|constructor].
    apply trace_bind; [|constructor].
    assert (He : alarm_edge cfg env st = true)
      by (unfold alarm_edge; now rewrite Hok, Hb, Hn).
    eapply Forall_impl;
      [|apply (dispatch_trace cfg (faults env) (status_alarm cfg env st)
                 logging.CRITICAL)].
    + intros e He'. left. now split.
    + intros s' handler. rewrite fst_bind. cbn [ret fst].
      destruct (snd _); now rewrite app_nil_r.
  - apply trace_bind; [housekeeping_event|].
    intros _ _.
    destruct (alarmNTriggers cfg <=? numberOfAlarmsLeftToTrigger st + 1);
      constructor.
Qed.

Lemma info_branch_events cfg env st :
  Forall (cycle_event cfg env st)
    (fst (info_branch cfg env (status_after cfg env st)
            (nextInfoTrigger st))).
Proof.
  unfold info_branch. fold (info_due env st).
  destruct (info_due env st) eqn:Hdue; [|constructor].
  apply trace_bind.
  - eapply Forall_impl;
      [|apply (dispatch_trace cfg (faults env) (status_after cfg env st)
                 logging.INFO); reflexivity].
    intros e He. right. left. now split.
  - intros _ _. apply trace_bind; [housekeeping_event|]. constructor.
Qed.

(** Every event of a cycle, whether the cycle returns or not, belongs to
    the alarm dispatch, to the information dispatch or to the
    bookkeeping. *)
Lemma cycle_events cfg env st :
  Forall (cycle_event cfg env st) (fst (cycle cfg env st)).
Proof.
  unfold cycle. fold (reading env). fold (status_before cfg env st).
  apply trace_bind; [housekeeping_event|].
  intros _ _.
  apply trace_bind; [housekeeping_event|].
  intros _ _.
  apply trace_bind; [housekeeping_event|].
  intros _ _. apply trace_bind; [apply alarm_branch_events|].
  intros [[[s n] p] msg] Ha.
  destruct (alarm_branch_outcome cfg env st) as [Hs _]. cbn zeta in Hs.
  rewrite Hs in Ha. destruct (alarm_raises cfg env st); [discriminate|].
  injection Ha as Hs' Hn' Hp' Hm'. rewrite <- Hm'.
  apply trace_bind; [apply info_branch_events|]. intros deadline _.
  constructor.
Qed.

Lemma monitor_setup_events cfg io now :
  Forall (fun e =>
            dispatched cfg io
              (ConfigMsg (adcNumber cfg) (readPeriodState cfg)
                         (alarmMinVoltage cfg) (alarmNTriggers cfg))
              logging.INFO e
            \/ housekeeping e)
         (fst (monitor_setup cfg io now)).
Proof.
  unfold monitor_setup. apply trace_bind.
  - eapply Forall_impl; [|apply dispatch_trace; reflexivity]. now left.
  - intros _ _. apply trace_bind.
    + cbn [emit fst]. constructor; [right; exact I|constructor].
    + intros _ _. apply trace_bind; [|constructor].
      cbn [emit fst]. constructor; [right; exact I|constructor].
Qed.

Lemma monitor_loop_events (P : Event -> Prop) cfg envs st :
  (forall env st', Forall P (fst (cycle cfg env st'))) ->
  Forall P (fst (monitor_loop cfg envs st)).
Proof.
  intros Hcy. revert st. induction envs as [|env rest IH]; intros st;
    [constructor|].
  cbn [monitor_loop]. apply trace_bind; [apply Hcy|]. intros st' _. apply IH.
Qed.

(** The two kinds of handler call a cycle can make. *)
Lemma handlers_in_cycle cfg env st handler msg severity :
  In (Trigger handler msg severity) (fst (cycle cfg env st)) ->
  (severity = logging.CRITICAL /\ below cfg env = true)
  \/ severity = logging.INFO.
Proof.
  intros Hin.
  pose proof (proj1 (Forall_forall _ _) (cycle_events cfg env st) _ Hin)
    as [[He (_ & _ & Hs)]|[[_ (_ & _ & Hs)]|[]]]; [left|now right].
  split; [exact Hs|]. unfold alarm_edge in He.
  apply andb_prop in He as [He _]. now apply andb_prop in He as [_ Hb].
Qed.

(** ** When the handlers are called *)

(** X5. Every call of a handler in a cycle, whether the cycle returns or
    not, is a call of a registered handler and is either a [CRITICAL] call
    with the alarm message, in a cycle that starts in [OK], reads below the
    threshold and raises the alarm, or an [INFO] call in a cycle whose clock
    is past the deadline. So no alarm is repeated while the state is
    [ALARM], and no other severity is ever used. *)
Theorem handlers_called_only_for_alarm_or_information cfg env st handler msg
    severity :
  In (Trigger handler msg severity) (fst (cycle cfg env st)) ->
  In handler (alarmHandlers cfg)
  /\ ((severity = logging.CRITICAL
       /\ msg = status_alarm cfg env st
       /\ alarmState st = OK
       /\ below cfg env = true
       /\ numberOfAlarmsLeftToTrigger st - 1 < 1)
      \/ (severity = logging.INFO
          /\ msg = status_after cfg env st
          /\ (nextInfoTrigger st < now_check env)%Q)).
Proof.
  intros Hin.
  pose proof (proj1 (Forall_forall _ _) (cycle_events cfg env st) _ Hin)
    as [[He (Hh & Hm & Hs)]|[[Hd (Hh & Hm & Hs)]|[]]].
  - split; [exact Hh|]. left. unfold alarm_edge in He.
    apply andb_prop in He as [He Hn]. apply andb_prop in He as [Hok Hb].
    apply AlarmState_eqb_eq in Hok. apply Z.ltb_lt in Hn. now repeat split.
  - split; [exact Hh|]. right. apply Qgt_bool_lt in Hd. now repeat split.
Qed.

(** In the cycle that raises the alarm, the buzzer handler is called with
    severity [CRITICAL]. *)
Lemma handlers_called_only_for_alarm_or_information_witness :
  In (BuzzerAlarmHandler 27 30) (alarmHandlers (sample_config 1))
  /\ ((logging.CRITICAL = logging.CRITICAL
       /\ status_alarm (sample_config 1) low_cycle
            (initial_state (sample_config 1) 0)
          = status_alarm (sample_config 1) low_cycle
              (initial_state (sample_config 1) 0)
       /\ alarmState (initial_state (sample_config 1) 0) = OK
       /\ below (sample_config 1) low_cycle = true
       /\ numberOfAlarmsLeftToTrigger (initial_state (sample_config 1) 0) - 1
          < 1)
      \/ (logging.CRITICAL = logging.INFO
          /\ status_alarm (sample_config 1) low_cycle
               (initial_state (sample_config 1) 0)
             = status_after (sample_config 1) low_cycle
                 (initial_state (sample_config 1) 0)
          /\ (nextInfoTrigger (initial_state (sample_config 1) 0)
              < now_check low_cycle)%Q)).
Proof.
  refine (handlers_called_only_for_alarm_or_information (sample_config 1)
            low_cycle (initial_state (sample_config 1) 0)
            (BuzzerAlarmHandler 27 30)
            (status_alarm (sample_config 1) low_cycle
               (initial_state (sample_config 1) 0))
            logging.CRITICAL _).
  cbn. tauto.
Defined.

(** ** When the buzzer sounds *)

(** X6. The buzzer handler gets past its test of the severity, and so
    touches the tone generator, only in a cycle that starts in [OK], reads
    below the threshold and raises the alarm, and a siren that has run is
    that of a registered buzzer handler; the start-up notification and the
    information alarm never drive the buzzer. *)
Theorem buzzer_is_driven_only_when_alarm_is_raised cfg io now env st e :
  siren_event e ->
  ~ In e (fst (monitor_setup cfg io now))
  /\ (In e (fst (cycle cfg env st)) ->
      alarmState st = OK
      /\ below cfg env = true
      /\ numberOfAlarmsLeftToTrigger st - 1 < 1
      /\ forall pin duration,
           e = Siren pin duration ->
           In (BuzzerAlarmHandler pin duration) (alarmHandlers cfg)).
Proof.
  intros Hsiren. split.
  - intros Hin.
    pose proof (proj1 (Forall_forall _ _) (monitor_setup_events cfg io now)
                  _ Hin) as [Hd|Hh].
    + destruct e as [| |level []| | |]; try contradiction; cbn in Hd;
        unfold logging.ERROR, logging.INFO in Hd; lia.
    + destruct e as [| |level []| | |]; contradiction.
  - intros Hin.
    pose proof (proj1 (Forall_forall _ _) (cycle_events cfg env st) _ Hin)
      as [[He Hd]|[[_ Hd]|Hh]].
    + unfold alarm_edge in He. apply andb_prop in He as [He Hn].
      apply andb_prop in He as [Hok Hb]. apply AlarmState_eqb_eq in Hok.
      apply Z.ltb_lt in Hn. repeat split; try assumption.
      intros pin duration ->. exact (proj1 Hd).
    + destruct e as [| |level []| | |]; try contradiction; cbn in Hd;
        unfold logging.ERROR, logging.INFO in Hd; lia.
    + destruct e as [| |level []| | |]; contradiction.
Qed.

(** The siren of the cycle that raises the alarm in the sample
    configuration. *)
Lemma buzzer_is_driven_only_when_alarm_is_raised_witness :
  In (Siren 27 30)
     (fst (cycle (sample_config 1) low_cycle
             (initial_state (sample_config 1) 0)))
  /\ below (sample_config 1) low_cycle = true
  /\ In (BuzzerAlarmHandler 27 30) (alarmHandlers (sample_config 1)).
Proof.
  assert (Hin : In (Siren 27 30)
                   (fst (cycle (sample_config 1) low_cycle
                           (initial_state (sample_config 1) 0))))
    by (cbn; tauto).
  split; [exact Hin|].
  pose (H := proj2 (buzzer_is_driven_only_when_alarm_is_raised
                      (sample_config 1) all_working 0 low_cycle
                      (initial_state (sample_config 1) 0) (Siren 27 30) I)
               Hin).
  split; [exact (proj1 (proj2 H))|].
  exact (proj2 (proj2 (proj2 H)) 27 30 eq_refl).
Defined.

(** ** What the mails say *)

(** X7. Every mail a cycle sends is sent for a registered mail handler,
    from its user to its destination, and names its severity: it is a
    [CRITICAL] mail with the alarm message in a cycle that raises the alarm,
    or an [INFO] mail with the status message when the information alarm is
    due; the fallback name [NOTSET] never appears. *)
Theorem mails_name_their_severity cfg env st username destination name msg :
  In (SendMail username destination name msg) (fst (cycle cfg env st)) ->
  (exists password,
     In (EMailAlarmHandler username password destination)
        (alarmHandlers cfg))
  /\ ((name = "CRITICAL" /\ msg = status_alarm cfg env st
       /\ alarm_edge cfg env st = true)
      \/ (name = "INFO" /\ msg = status_after cfg env st
          /\ info_due env st = true)).
Proof.
  intros Hin.
  pose proof (proj1 (Forall_forall _ _) (cycle_events cfg env st) _ Hin)
    as [[He (Hh & Hn & Hm & _)]|[[Hd (Hh & Hn & Hm & _)]|[]]].
  - split; [exact Hh|]. left. now repeat split.
  - split; [exact Hh|]. right. now repeat split.
Qed.

(** The alarm mail of the sample configuration. *)
Lemma mails_name_their_severity_witness :
  (exists password,
     In (EMailAlarmHandler "monitor@example.org" password
                           "operator@example.org")
        (alarmHandlers (sample_config 1)))
  /\ (("CRITICAL" = "CRITICAL"
       /\ status_alarm (sample_config 1) low_cycle
            (initial_state (sample_config 1) 0)
          = status_alarm (sample_config 1) low_cycle
              (initial_state (sample_config 1) 0)
       /\ alarm_edge (sample_config 1) low_cycle
            (initial_state (sample_config 1) 0) = true)
      \/ ("CRITICAL" = "INFO"
          /\ status_alarm (sample_config 1) low_cycle
               (initial_state (sample_config 1) 0)
             = status_after (sample_config 1) low_cycle
                 (initial_state (sample_config 1) 0)
          /\ info_due low_cycle (initial_state (sample_config 1) 0) = true)).
Proof.
  refine (mails_name_their_severity (sample_config 1) low_cycle
            (initial_state (sample_config 1) 0) "monitor@example.org"
            "operator@example.org" "CRITICAL"
            (status_alarm (sample_config 1) low_cycle
               (initial_state (sample_config 1) 0)) _).
  cbn. tauto.
Defined.

(** X8. A threshold that is not a number, which [--alarm_min nan] yields
    and the start-up code lets through, disables the alarm: no reading
    compares below it, so [monitor] returns from every cycle, stays in [OK]
    and never calls a handler with a severity other than [INFO]. *)
Theorem nan_threshold_never_alarms cfg io now envs :
  alarmMinVoltage cfg = nan ->
  exists tr st,
    monitor cfg io now envs = (tr, Some st)
    /\ alarmState st = OK
    /\ forall handler msg severity,
         In (Trigger handler msg severity) tr -> severity = logging.INFO.
Proof.
  intros Hnan.
  assert (Hgood : Forall (fun env => below cfg env = false) envs).
  { apply Forall_forall. intros env _. now apply below_nan. }
  destruct (stays_OK_without_low_reading cfg envs (initial_state cfg now)
              eq_refl Hgood) as [Hr Hs].
  pose proof (monitor_outcome cfg io now envs) as Ho. rewrite Hr in Ho.
  destruct (returns_intro _ _ Ho) as [tr Htr].
  exists tr, (run_state cfg envs (initial_state cfg now)).
  split; [exact Htr|]. split; [exact Hs|].
  intros handler msg severity Hin.
  assert (Htr' : tr = fst (monitor cfg io now envs)) by now rewrite Htr.
  rewrite Htr', monitor_fst in Hin. apply in_app_or in Hin as [Hin|Hin].
  - pose proof (proj1 (Forall_forall _ _) (monitor_setup_events cfg io now)
                  _ Hin) as [(_ & _ & Hsev)|[]].
    exact Hsev.
  - assert (Hall : Forall (fun e => forall h m s,
                             e = Trigger h m s -> s = logging.INFO)
                     (fst (monitor_loop cfg envs (initial_state cfg now)))).
    { apply monitor_loop_events. intros env st'. apply Forall_forall.
      intros e He h m s ->.
      destruct (handlers_in_cycle cfg env st' h m s He)
        as [(Hsev & Hb)|Hsev]; [|exact Hsev].
      now rewrite (below_nan cfg env Hnan) in Hb. }
    exact (proj1 (Forall_forall _ _) Hall _ Hin _ _ _ eq_refl).
Qed.

Lemma nan_threshold_never_alarms_witness :
  exists tr st,
    monitor (main (sample_args_with_threshold nan)) all_working 0
      [low_cycle; low_cycle] = (tr, Some st)
    /\ alarmState st = OK.
Proof.
  destruct (nan_threshold_never_alarms
              (main (sample_args_with_threshold nan)) all_working 0
              [low_cycle; low_cycle] eq_refl) as (tr & st & Hrun & Hs & _).
  now exists tr, st.
Defined.

(** ** The order of the handlers *)

(** X10. The start-up code registers the mail handler before the buzzer
    handler. So in the cycle that raises the alarm the mail handler is
    called with the alarm message first, does its sending and logging, and
    returns whether or not the mail went out; only then is the buzzer
    handler called with the same message, and it gets past its test of the
    severity. *)
Theorem mail_handler_is_called_before_the_buzzer args env st :
  alarm_edge (main args) env st = true ->
  exists mid rest,
    fst (cycle (main args) env st)
    = [Sleep (readPeriod st);
       AnalogRead (adc args) (adcVal env);
       Log logging.DEBUG (LogMessage (status_before (main args) env st));
       Log logging.WARNING
           (LogLessThanMinimum (reading env) (alarm_min args));
       Trigger (EMailAlarmHandler (email_user args) (email_pass args)
                                  (email_dest args))
               (status_alarm (main args) env st) logging.CRITICAL]
      ++ mid
      ++ Trigger (BuzzerAlarmHandler (buzzer_pin args)
                                     (buzzer_duration args))
                 (status_alarm (main args) env st) logging.CRITICAL
         :: Log logging.INFO LogSirenTriggering :: rest
    /\ Forall mail_event mid.
Proof.
  intros He. unfold alarm_edge in He. apply andb_prop in He as [He Hn].
  apply andb_prop in He as [Hok Hb].
  unfold cycle. fold (reading env). fold (status_before (main args) env st).
  unfold alarm_branch. fold (below (main args) env). rewrite Hok, Hb, Hn.
  unfold status_alarm, status_before.
  cbn [main alarmHandlers adcNumber alarmMinVoltage for_handlers].
  unfold trigger, EMailAlarmHandler_trigger, BuzzerAlarmHandler_trigger.
  destruct (smtp_raises (faults env)), (wpi_raises (faults env));
    cbn -[reading info_branch];
    (eexists [_], _; split; [reflexivity|repeat constructor]).
Qed.

(** With the mail relay and the tone generator both failing, the buzzer
    handler is still called after the mail handler. *)
Lemma mail_handler_is_called_before_the_buzzer_witness :
  let cfg := main (sample_args 1 43200) in
  let env := sample_cycle 284 2
               {| wpi_raises := true; smtp_raises := true |} in
  exists mid rest,
    fst (cycle cfg env (initial_state cfg 0))
    = [Sleep 2%float;
       AnalogRead 1 284;
       Log logging.DEBUG
           (LogMessage (status_before cfg env (initial_state cfg 0)));
       Log logging.WARNING (LogLessThanMinimum (reading env) 0.7%float);
       Trigger (EMailAlarmHandler "monitor@example.org" "secret"
                                  "operator@example.org")
               (status_alarm cfg env (initial_state cfg 0))
               logging.CRITICAL]
      ++ mid
      ++ Trigger (BuzzerAlarmHandler 27 30)
                 (status_alarm cfg env (initial_state cfg 0))
                 logging.CRITICAL
         :: Log logging.INFO LogSirenTriggering :: rest
    /\ Forall mail_event mid.
Proof.
  cbn zeta.
  exact (mail_handler_is_called_before_the_buzzer (sample_args 1 43200)
           (sample_cycle 284 2 {| wpi_raises := true; smtp_raises := true |})
           (initial_state (main (sample_args 1 43200)) 0) eq_refl).
Defined.

(** ** The names of the severities *)

Ltac split_severity s :=
  destruct (Z.eqb_spec s 0);
  [|destruct (Z.eqb_spec s 10);
    [|destruct (Z.eqb_spec s 20);
      [|destruct (Z.eqb_spec s 30);
        [|destruct (Z.eqb_spec s 40);
          [|destruct (Z.eqb_spec s 50)]]]]].

(** X11. [getLoggingString] names the five levels from [DEBUG] to
    [CRITICAL] by distinct names and answers [NOTSET], the entry it starts
    from, for every other severity, a severity that is no key of its
    dictionary included. *)
Theorem getLoggingString_falls_back_to_NOTSET severity :
  (getLoggingString severity = "NOTSET"
   <-> severity <> logging.DEBUG /\ severity <> logging.INFO
       /\ severity <> logging.WARNING /\ severity <> logging.ERROR
       /\ severity <> logging.CRITICAL)
  /\ forall severity',
       getLoggingString severity = getLoggingString severity' ->
       getLoggingString severity <> "NOTSET" ->
       severity = severity'.
Proof.
  unfold getLoggingString, logging.NOTSET, logging.DEBUG, logging.INFO,
    logging.WARNING, logging.ERROR, logging.CRITICAL.
  split.
  - split_severity severity;
      (split;
       [intros Hname; first [discriminate Hname|repeat split; lia]
       |intros (? & ? & ? & ? & ?); first [reflexivity|exfalso; lia]]).
  - intros severity'.
    split_severity severity; split_severity severity'; intros Hname Hnot;
      first [discriminate Hname|lia|exfalso; apply Hnot; reflexivity].
Qed.

(** ** The siren *)

Lemma tone_loop_passes pin endTime lows now later :
  Forall (fun t => (t < endTime)%Q) lows ->
  (endTime <= now)%Q ->
  tone_loop pin endTime (lows ++ now :: later)
  = (List.concat (repeat (tone_pass pin) (List.length lows)), true).
Proof.
  intros Hlows Hnow. induction Hlows as [|t lows Ht _ IH].
  - cbn [app tone_loop List.length repeat List.concat].
    assert (Hgt : Qgt_bool endTime now = false) by now apply Qgt_bool_le.
    now rewrite Hgt.
  - cbn [app tone_loop List.length repeat List.concat].
    apply Qgt_bool_lt in Ht. now rewrite Ht, IH.
Qed.

(** X12. The siren creates the tone generator, plays one whole pass of
    650 Hz for 0.4 s and 900 Hz for 0.6 s for every loop test that reads a
    clock still before the end time, and stops the generator at the first
    test that does not; what the clock reads later is of no account. In
    particular a pass that has begun is played to its end, and a clock that
    is at or past the end time at the first test gives no tone at all. *)
Theorem siren_plays_whole_passes pin duration startTime lows now later :
  Forall (fun t => (t < startTime + inject_Z duration)%Q) lows ->
  (startTime + inject_Z duration <= now)%Q ->
  siren pin duration startTime (lows ++ now :: later)
  = (SoftToneCreate pin
       :: List.concat (repeat [SoftToneWrite pin 650; ToneSleep 0.4%float;
                          SoftToneWrite pin 900; ToneSleep 0.6%float]
                         (List.length lows))
       ++ [SoftToneStop pin],
     true).
Proof.
  intros Hlows Hnow. unfold siren. cbn zeta.
  now rewrite (tone_loop_passes pin _ lows now later Hlows Hnow).
Qed.

(** A siren of 2 seconds, tested at 100, 101 and 102. *)
Lemma siren_plays_whole_passes_witness :
  siren 27 2 100 [100; 101; 102; 103]%Q
  = (SoftToneCreate 27
       :: List.concat (repeat [SoftToneWrite 27 650; ToneSleep 0.4%float;
                          SoftToneWrite 27 900; ToneSleep 0.6%float] 2)
       ++ [SoftToneStop 27],
     true).
Proof.
  refine (siren_plays_whole_passes 27 2 100 [100; 101]%Q 102 [103]%Q _ _).
  - repeat constructor.
  - discriminate.
Defined.

Lemma sleeping_clock_split startTime tests (n : nat) :
  (n < tests)%nat ->
  sleeping_clock startTime tests
  = sleeping_clock startTime n
    ++ (startTime + inject_Z (Z.of_nat n))%Q
       :: map (fun k => (startTime + inject_Z (Z.of_nat k))%Q)
              (seq (S n) (tests - S n)).
Proof.
  intros Hn. unfold sleeping_clock.
  replace tests with (n + S (tests - S n))%nat at 1 by lia.
  now rewrite seq_app, map_app.
Qed.

Lemma sleeping_clock_early startTime duration (n : nat) :
  (n <= Z.to_nat duration)%nat ->
  Forall (fun t => (t < startTime + inject_Z duration)%Q)
         (sleeping_clock startTime n).
Proof.
  intros Hn. unfold sleeping_clock. apply Forall_forall.
  intros t Hin. apply in_map_iff in Hin as (k & <- & Hk).
  apply in_seq in Hk.
  assert (inject_Z (Z.of_nat k) < inject_Z duration)%Q
    by (rewrite <- Zlt_Qlt; lia).
  lra.
Qed.

(** X13. Under a clock that advances only while the siren sleeps, a siren
    of [duration] seconds plays exactly [duration] passes, one second each,
    and then stops the tone generator; a duration of zero or less plays
    none. *)
Theorem siren_lasts_its_duration pin duration startTime tests :
  (Z.to_nat duration < tests)%nat ->
  siren pin duration startTime (sleeping_clock startTime tests)
  = (SoftToneCreate pin
       :: List.concat (repeat (tone_pass pin) (Z.to_nat duration))
       ++ [SoftToneStop pin],
     true).
Proof.
  intros Htests. unfold siren. cbn zeta.
  rewrite (sleeping_clock_split startTime tests _ Htests).
  rewrite tone_loop_passes.
  - unfold sleeping_clock. now rewrite length_map, length_seq.
  - apply sleeping_clock_early. lia.
  - assert (inject_Z duration <= inject_Z (Z.of_nat (Z.to_nat duration)))%Q
      by (rewrite <- Zle_Qle; lia).
    lra.
Qed.

(** The default siren of 30 seconds plays 30 passes. *)
Lemma siren_lasts_its_duration_witness :
  siren 27 30 0 (sleeping_clock 0 31)
  = (SoftToneCreate 27 :: List.concat (repeat (tone_pass 27) 30)
       ++ [SoftToneStop 27],
     true).
Proof.
  refine (siren_lasts_its_duration 27 30 0 31 _). cbn. lia.
Defined.

(** ** The pace of the information alarm *)

Lemma info_times_spaced cfg envs st since :
  Forall (fun env => (now_check env <= now_rearm env)%Q) envs ->
  (since + inject_Z (infoPeriod cfg) <= nextInfoTrigger st)%Q ->
  spaced (inject_Z (infoPeriod cfg)) since (info_times cfg envs st).
Proof.
  intros Hclock. revert st since.
  induction Hclock as [|env rest Henv _ IH]; intros st since Hsince;
    [exact I|].
  cbn [info_times]. rewrite cycle_outcome.
  destruct (alarm_raises cfg env st); [exact I|].
  destruct (info_due env st) eqn:Hdue.
  - pose proof (proj1 (Qgt_bool_lt _ _) Hdue) as Hlt.
    cbn [app spaced]. split; [lra|].
    apply IH. unfold next_state; cbn [nextInfoTrigger]. rewrite Hdue. lra.
  - cbn [app].
    apply IH. unfold next_state; cbn [nextInfoTrigger]. now rewrite Hdue.
Qed.

(** X14. If the clock does not go backwards between the test of the
    deadline and its recomputation, then over a whole run of [monitor] the
    first information alarm is dispatched more than [infoPeriod] after the
    start and every further one more than [infoPeriod] after the one before
    it, whatever the readings and the alarm state. *)
Theorem information_alarms_are_spaced cfg now envs :
  Forall (fun env => (now_check env <= now_rearm env)%Q) envs ->
  spaced (inject_Z (infoPeriod cfg)) now
         (info_times cfg envs (initial_state cfg now)).
Proof.
  intros Hclock. apply info_times_spaced; [exact Hclock|].
  cbn [initial_state nextInfoTrigger]. lra.
Qed.

(** The run of [steady_run]: deadline 10, dispatches at 12 and at 24. *)
Lemma information_alarms_are_spaced_witness :
  spaced 10 0 [inject_Z 12; inject_Z 24].
Proof.
  refine (information_alarms_are_spaced (main (sample_args 1 10)) 0
            steady_run _).
  unfold steady_run. apply Forall_forall. intros env Hin.
  apply in_map_iff in Hin as (k & <- & _). cbn. lra.
Defined.

(** ** The trigger count at start-up *)

(** C5, where the code departs from it. For a command line with a trigger
    count below [1], the start-up code sets its local [alarmNTriggers] to
    [1] and then calls [monitor] with [args.alarm_tri] all the same:
    nothing is rejected, the start-up notification goes out, and the loop
    begins its first cycle with a counter below [1]. *)
Theorem C5_count_below_one_reaches_the_loop args io now env :
  alarm_tri args < 1 ->
  main_alarmNTriggers args = 1
  /\ alarmNTriggers (main args) = alarm_tri args
  /\ exists tr0 rest,
       monitor_setup (main args) io now
       = (tr0, Some (initial_state (main args) now))
       /\ numberOfAlarmsLeftToTrigger (initial_state (main args) now) < 1
       /\ fst (monitor (main args) io now [env])
          = tr0 ++ Sleep (period args) :: rest.
Proof.
  intros Hlow. split; [|split; [reflexivity|]].
  - unfold main_alarmNTriggers. cbn zeta.
    destruct (Z.ltb_spec 1 (alarm_tri args)); [lia|reflexivity].
  - destruct (monitor_setup_outcome (main args) io now) as [Hs _].
    destruct (returns_intro _ _ Hs) as [tr0 Htr0].
    destruct (cycle_sleeps_first (main args) env
                (initial_state (main args) now)) as [rest0 Hrest0].
    exists tr0,
      (rest0 ++ (if alarm_raises (main args) env
                      (initial_state (main args) now)
                 then []
                 else fst (monitor_loop (main args) []
                             (next_state (main args) env
                                (initial_state (main args) now))))).
    split; [exact Htr0|]. split; [exact Hlow|].
    rewrite monitor_fst, monitor_loop_fst_cons, Hrest0, Htr0.
    reflexivity.
Qed.

(** With [--alarm_tri 0]: the local is 1, [monitor] gets 0, and the first
    low reading already raises the alarm. *)
Lemma C5_witness :
  main_alarmNTriggers (sample_args 0 43200) = 1
  /\ alarmNTriggers (main (sample_args 0 43200)) = 0
  /\ alarmState (run_state (main (sample_args 0 43200)) [low_cycle]
                   (initial_state (main (sample_args 0 43200)) 0)) = ALARM.
Proof.
  pose (H := C5_count_below_one_reaches_the_loop (sample_args 0 43200)
               all_working 0 low_cycle ltac:(cbn; lia)).
  split; [exact (proj1 H)|]. split; [exact (proj1 (proj2 H))|]. reflexivity.
Defined.
